(** * Covey.Town town service with Spotify synchronisation

    A shallow embedding of the town service: the Spotify client
    ([SpotifyClient.ts]), the request handlers
    ([CoveyTownRequestHandlers.ts]) and the town controller and towns store
    they drive.  JavaScript objects that are shared and mutated in place
    (players, the client's town-to-player-token maps) live in explicit
    stores that every operation threads through; a call that can throw
    returns a [result]. *)

From stdpp Require Import gmap strings list fin_maps pretty.
From Stdlib Require Import ZArith Ascii.

Set Warnings "-register-all".
Local Open Scope string_scope.
Local Open Scope Z_scope.
Local Open Scope list_scope.

(** ** JavaScript values and exceptions *)

Module Js.

(** The double quote character, and a string put between double quotes. *)
Definition dq : string := String (ascii_of_nat 34) EmptyString.
Definition quoted (s : string) : string := (dq ++ s ++ dq)%string.

(** The values a response body or a parsed credential is made of.  A
    number [JNum m e] stands for [m * 10^e]. *)
Inductive JsValue : Type :=
  | JUndefined
  | JNull
  | JBool (b : bool)
  | JNum (m e : Z)
  | JStr (s : string)
  | JArr (elems : list JsValue)
  | JObj (fields : list (string * JsValue)).

(** What the code throws. *)
Inductive Exn : Type :=
  | TypeError                 (* property read on null or undefined *)
  | SyntaxError               (* JSON.parse on malformed text *)
  | AssertionError            (* assert(falsy) *)
  | ProviderError             (* the video token provider rejected *)
  | Error (message : string). (* new Error(message) *)

Inductive result (A : Type) : Type :=
  | Ok (a : A)
  | Throw (e : Exn).
Arguments Ok {A} a.
Arguments Throw {A} e.

Definition is_throw {A} (r : result A) : bool :=
  match r with Ok _ => false | Throw _ => true end.

(** [if (v)] *)
Definition truthy (v : JsValue) : bool :=
  match v with
  | JUndefined | JNull => false
  | JBool b => b
  | JNum m _ => negb (m =? 0)
  | JStr s => negb (String.eqb s "")
  | JArr _ | JObj _ => true
  end.

Fixpoint assoc (k : string) (fields : list (string * JsValue)) : option JsValue :=
  match fields with
  | [] => None
  | (k', v) :: rest => if String.eqb k k' then Some v else assoc k rest
  end.

(** [v.k] for the keys this service reads ([item], [is_playing],
    [access_token], [expiry]): none of them is a property of a string, a
    number, a boolean or an array, so only an object can hold them, and
    reading any property of [null] or [undefined] throws. *)
Definition get_prop (v : JsValue) (k : string) : result JsValue :=
  match v with
  | JUndefined | JNull => Throw TypeError
  | JObj fields => Ok (default JUndefined (assoc k fields))
  | _ => Ok JUndefined
  end.

End Js.
Export Js.

(** ** JSON text

    [JSON.parse] belongs to the runtime, and the client below takes it as a
    parameter.  [Json.parse] is a parser for JSON text without [\u] escapes,
    on which the model is run on concrete credentials. *)

Module Json.

Definition is_ws (c : ascii) : bool :=
  let n := nat_of_ascii c in
  (n =? 32)%nat || (n =? 9)%nat || (n =? 10)%nat || (n =? 13)%nat.

Fixpoint skip_ws (s : list ascii) : list ascii :=
  match s with
  | c :: r => if is_ws c then skip_ws r else s
  | [] => []
  end.

Definition digit (c : ascii) : option Z :=
  let n := nat_of_ascii c in
  if (48 <=? n)%nat && (n <=? 57)%nat then Some (Z.of_nat (n - 48)) else None.

(** Reads a maximal run of digits: its value on top of [acc], the number of
    digits read, and the rest. *)
Fixpoint digits (s : list ascii) (acc : Z) (count : nat) : Z * nat * list ascii :=
  match s with
  | c :: r =>
      match digit c with
      | Some d => digits r (10 * acc + d) (S count)
      | None => (acc, count, s)
      end
  | [] => (acc, count, [])
  end.

(** The integer part: a single 0, or digits that do not start with 0. *)
Definition int_part (s : list ascii) : option (Z * list ascii) :=
  match s with
  | c :: r =>
      match digit c with
      | Some 0 => Some (0, r)
      | Some _ => let '(v, _, r') := digits s 0 0%nat in Some (v, r')
      | None => None
      end
  | [] => None
  end.

Definition frac_part (m : Z) (s : list ascii) : option (Z * Z * list ascii) :=
  match s with
  | "."%char :: r =>
      let '(v, n, r') := digits r m 0%nat in
      if (n =? 0)%nat then None else Some (v, - Z.of_nat n, r')
  | _ => Some (m, 0, s)
  end.

Definition exp_part (s : list ascii) : option (Z * list ascii) :=
  let unsigned (neg : bool) (r : list ascii) :=
    let '(v, n, r') := digits r 0 0%nat in
    if (n =? 0)%nat then None else Some (if neg then - v else v, r') in
  match s with
  | "e"%char :: r | "E"%char :: r =>
      match r with
      | "-"%char :: r' => unsigned true r'
      | "+"%char :: r' => unsigned false r'
      | _ => unsigned false r
      end
  | _ => Some (0, s)
  end.

Definition number (s : list ascii) : option (JsValue * list ascii) :=
  let '(neg, s1) :=
    match s with "-"%char :: r => (true, r) | _ => (false, s) end in
  '(i, s2) ← int_part s1;
  '(m, e1, s3) ← frac_part i s2;
  '(e2, s4) ← exp_part s3;
  Some (JNum (if neg then - m else m) (e1 + e2), s4).

(** The body of a string, after its opening quote, up to its closing one. *)
Fixpoint string_body (s : list ascii) : option (string * list ascii) :=
  match s with
  | [] => None
  | c :: r =>
      let n := nat_of_ascii c in
      if (n =? 34)%nat then Some (EmptyString, r)
      else if (n =? 92)%nat then
        match r with
        | e :: r' =>
            let en := nat_of_ascii e in
            let unescaped :=
              if (en =? 34)%nat || (en =? 92)%nat || (en =? 47)%nat then Some e
              else if (en =? 98)%nat then Some (ascii_of_nat 8)
              else if (en =? 102)%nat then Some (ascii_of_nat 12)
              else if (en =? 110)%nat then Some (ascii_of_nat 10)
              else if (en =? 114)%nat then Some (ascii_of_nat 13)
              else if (en =? 116)%nat then Some (ascii_of_nat 9)
              else None in
            u ← unescaped;
            '(str, r'') ← string_body r';
            Some (String u str, r'')
        | [] => None
        end
      else if (n <? 32)%nat then None
      else '(str, r') ← string_body r; Some (String c str, r')
  end.

(** A later member replaces an earlier one of the same name. *)
Fixpoint obj_set (k : string) (v : JsValue) (fields : list (string * JsValue))
  : list (string * JsValue) :=
  match fields with
  | [] => [(k, v)]
  | (k', v') :: rest =>
      if String.eqb k k' then (k, v) :: rest else (k', v') :: obj_set k v rest
  end.

Fixpoint value (fuel : nat) (s : list ascii) : option (JsValue * list ascii) :=
  match fuel with
  | O => None
  | S fuel =>
      match skip_ws s with
      | "n"%char :: "u"%char :: "l"%char :: "l"%char :: r => Some (JNull, r)
      | "t"%char :: "r"%char :: "u"%char :: "e"%char :: r => Some (JBool true, r)
      | "f"%char :: "a"%char :: "l"%char :: "s"%char :: "e"%char :: r =>
          Some (JBool false, r)
      | "["%char :: r =>
          match skip_ws r with
          | "]"%char :: r' => Some (JArr [], r')
          | _ => elements fuel r []
          end
      | "{"%char :: r =>
          match skip_ws r with
          | "}"%char :: r' => Some (JObj [], r')
          | _ => members fuel r []
          end
      | c :: r =>
          if (nat_of_ascii c =? 34)%nat
          then '(str, r') ← string_body r; Some (JStr str, r')
          else number (c :: r)
      | [] => None
      end
  end
with elements (fuel : nat) (s : list ascii) (acc : list JsValue)
  : option (JsValue * list ascii) :=
  match fuel with
  | O => None
  | S fuel =>
      '(v, r) ← value fuel s;
      match skip_ws r with
      | ","%char :: r' => elements fuel r' (acc ++ [v])
      | "]"%char :: r' => Some (JArr (acc ++ [v]), r')
      | _ => None
      end
  end
with members (fuel : nat) (s : list ascii) (acc : list (string * JsValue))
  : option (JsValue * list ascii) :=
  match fuel with
  | O => None
  | S fuel =>
      match skip_ws s with
      | c :: r =>
          if (nat_of_ascii c =? 34)%nat then
            '(k, r1) ← string_body r;
            match skip_ws r1 with
            | ":"%char :: r2 =>
                '(v, r3) ← value fuel r2;
                match skip_ws r3 with
                | ","%char :: r4 => members fuel r4 (obj_set k v acc)
                | "}"%char :: r4 => Some (JObj (obj_set k v acc), r4)
                | _ => None
                end
            | _ => None
            end
          else None
      | [] => None
      end
  end.

(** [JSON.parse(text)]; [None] stands for the SyntaxError it throws. *)
Definition parse (text : string) : option JsValue :=
  let s := String.list_ascii_of_string text in
  '(v, r) ← value (2 * length s + 2) s;
  match skip_ws r with
  | [] => Some v
  | _ => None
  end.

End Json.


(** ** Indexing and string conversion *)

Module JsAccess.

(** [v[0]].  An array gives its first element, an object its member ["0"],
    a string its first character; [null] and [undefined] throw. *)
Definition get_index0 (v : JsValue) : result JsValue :=
  match v with
  | JUndefined | JNull => Throw TypeError
  | JArr elems => Ok (default JUndefined (head elems))
  | JObj fields => Ok (default JUndefined (assoc "0" fields))
  | JStr (String c _) => Ok (JStr (String c EmptyString))
  | _ => Ok JUndefined
  end.

Fixpoint join_with (sep : string) (parts : list string) : string :=
  match parts with
  | [] => ""
  | [part] => part
  | part :: rest => part +:+ sep +:+ join_with sep rest
  end.

Section ToString.

(** How the runtime prints the number [m * 10^e]. *)
Variable Number_toString : Z → Z → string.

(** The text of a value whose conversion to a string succeeds (whether it
    does is [convertible], below).  An array prints its elements separated
    by commas, [null] and [undefined] elements as nothing; an object that
    inherits [toString] prints as [[object Object]]. *)
Fixpoint ToString (v : JsValue) : string :=
  match v with
  | JUndefined => "undefined"
  | JNull => "null"
  | JBool true => "true"
  | JBool false => "false"
  | JNum m e => Number_toString m e
  | JStr s => s
  | JArr elems =>
      join_with ","
        (map (λ x, match x with
                   | JUndefined | JNull => ""
                   | _ => ToString x
                   end) elems)
  | JObj _ => "[object Object]"
  end.

(** Whether the conversion to a string succeeds.  It calls the value's
    [toString], then its [valueOf].  An object read from a response body
    holds data only: a member of its own called [toString] is not callable
    and hides the inherited one, the [valueOf] that is tried next is either
    an own member, not callable again, or the inherited one, which returns
    the object itself: no primitive comes out and the conversion throws.
    An array converts when each of its elements does. *)
Fixpoint convertible (v : JsValue) : bool :=
  match v with
  | JArr elems => forallb convertible elems
  | JObj fields =>
      match assoc "toString" fields with
      | Some _ => false
      | None => true
      end
  | _ => true
  end.

(** The values whose conversion to a string throws, said directly: an
    object with a member of its own called [toString], and an array one of
    whose elements is such a value. *)
Inductive Unprintable : JsValue → Prop :=
  | Unprintable_object (fields : list (string * JsValue)) (member : JsValue) :
      assoc "toString" fields = Some member → Unprintable (JObj fields)
  | Unprintable_array (elems : list JsValue) (elem : JsValue) :
      In elem elems → Unprintable elem → Unprintable (JArr elems).

(** The conversion a template literal applies to an interpolated value:
    [`${v}`]. *)
Definition interpolate (v : JsValue) : result string :=
  if convertible v then Ok (ToString v) else Throw TypeError.

End ToString.

(** [null] or [undefined]: the values a property cannot be read from. *)
Definition nullish (v : JsValue) : bool :=
  match v with
  | JUndefined | JNull => true
  | _ => false
  end.

End JsAccess.
Export JsAccess.

(** ** What [types/Player] exports to the Spotify client *)

Module PlayerTypes.

(** A [Player] object is referred to by its [id], which the constructor
    draws fresh for every object: the model's reference to a player. *)
Abbreviation PlayerRef := string.

(** [SongData], as [getCurrentPlayingSong] builds it and [startUserPlayback]
    reads it. *)
Record SongData : Type := {
  displayTitle : string;
  uris : list string;
  progress : Z;
}.

(** [PlaybackState], as [getPlaybackState] builds it: [isPlaying] is
    whatever the response had under [is_playing]. *)
Record PlaybackState : Type := {
  isPlaying : JsValue;
}.

End PlayerTypes.
Export PlayerTypes.

(** ** The Spotify client ([SpotifyClient.ts]) *)

Module SpotifyClient.

(** [interface SpotifyToken].  The fields hold whatever the parsed
    credential had under [access_token] and [expiry]. *)
Record SpotifyToken : Type := {
  accessToken : JsValue;
  expiry : JsValue;
}.

(** [_townsToPlayerMaps : Map<string, Map<Player, SpotifyToken>>] *)
Abbreviation TownsToPlayerMaps := (gmap string (gmap PlayerRef SpotifyToken)).

(** The body [axios.put] sends to [/v1/me/player/play]. *)
Record PlayBody : Type := {
  body_uris : list string;
  body_progress_ms : Z;
}.

Definition getTokenForTownPlayer (maps : TownsToPlayerMaps)
    (coveyTownID : string) (player : PlayerRef) : JsValue :=
  let playerToToken := maps !! coveyTownID in
  let fullToken := playerToToken ≫= (λ m, m !! player) in
  match fullToken with
  | Some t => accessToken t
  | None => JUndefined
  end.

Definition addTownToClient (coveyTownID : string) (maps : TownsToPlayerMaps)
  : TownsToPlayerMaps :=
  let playerToToken : gmap PlayerRef SpotifyToken := ∅ in
  <[coveyTownID := playerToToken]> maps.

Definition removeTownFromClient (coveyTownID : string) (maps : TownsToPlayerMaps)
  : TownsToPlayerMaps :=
  delete coveyTownID maps.

Definition removeTownPlayerFromClient (coveyTownID : string) (player : PlayerRef)
    (maps : TownsToPlayerMaps) : TownsToPlayerMaps :=
  match maps !! coveyTownID with
  | Some playerToToken => <[coveyTownID := delete player playerToToken]> maps
  | None => maps
  end.

Definition parse_error (spotifyToken : string) : Exn :=
  Error ("Error parsing token " +:+ quoted spotifyToken).

Section Runtime.

(** [JSON.parse]: [None] when it throws. *)
Variable JSON_parse : string → option JsValue.

(** [axios.get(url, {headers})]: the body of the response, [None] when the
    request rejects.  The Authorization header is built from the player's
    token, which is what the oracle is given. *)
Variable axios_get : string → JsValue → option JsValue.

(** [axios.put(url, body, {headers})]: whether the request resolves. *)
Variable axios_put : string → PlayBody → JsValue → bool.

(** The [try] block of [addTownPlayerToClient]: parse, read both fields,
    then [playerToToken?.set(player, token)] on the map object of the
    town, which is the one the outer map holds. *)
Definition addTownPlayerToClient_try (coveyTownID : string) (player : PlayerRef)
    (spotifyToken : string) (maps : TownsToPlayerMaps)
  : result unit * TownsToPlayerMaps :=
  let playerToToken := maps !! coveyTownID in
  match JSON_parse spotifyToken with
  | None => (Throw SyntaxError, maps)
  | Some tokenJson =>
      match get_prop tokenJson "access_token" with
      | Throw e => (Throw e, maps)
      | Ok access =>
          match get_prop tokenJson "expiry" with
          | Throw e => (Throw e, maps)
          | Ok exp =>
              let token := {| accessToken := access; expiry := exp |} in
              (Ok (),
               match playerToToken with
               | Some m => <[coveyTownID := <[player := token]> m]> maps
               | None => maps
               end)
          end
      end
  end.

(** Whatever the [try] block throws is caught and replaced by the parse
    error. *)
Definition addTownPlayerToClient (coveyTownID : string) (player : PlayerRef)
    (spotifyToken : string) (maps : TownsToPlayerMaps)
  : result unit * TownsToPlayerMaps :=
  match addTownPlayerToClient_try coveyTownID player spotifyToken maps with
  | (Ok u, maps') => (Ok u, maps')
  | (Throw _, maps') => (Throw (parse_error spotifyToken), maps')
  end.

Definition getSpotifyAPICallResponse (maps : TownsToPlayerMaps) (apiURL : string)
    (coveyTownID : string) (player : PlayerRef) : option JsValue :=
  let playerToken := getTokenForTownPlayer maps coveyTownID player in
  axios_get apiURL playerToken.

Definition startUserPlayback (maps : TownsToPlayerMaps) (coveyTownID : string)
    (player : PlayerRef) (songData : SongData) : bool :=
  let playerToken := getTokenForTownPlayer maps coveyTownID player in
  axios_put "https://api.spotify.com/v1/me/player/play"
    {| body_uris := uris songData; body_progress_ms := progress songData |}
    playerToken.

(** No [try] around the property reads: a [null] body makes the call
    reject. *)
Definition getPlaybackState (maps : TownsToPlayerMaps) (coveyTownID : string)
    (player : PlayerRef) : result (option PlaybackState) :=
  let playbackStateInfo :=
    getSpotifyAPICallResponse maps "https://api.spotify.com/v1/me/player"
      coveyTownID player in
  match playbackStateInfo with
  | Some playbackStateJsonData =>
      match get_prop playbackStateJsonData "item" with
      | Throw e => Throw e
      | Ok item =>
          if truthy item then
            match get_prop playbackStateJsonData "is_playing" with
            | Throw e => Throw e
            | Ok playing => Ok (Some {| isPlaying := playing |})
            end
          else Ok None
      end
  | None => Ok None
  end.

(** How the runtime prints a number, for the template literal of
    [getCurrentPlayingSong]. *)
Variable Number_toString : Z → Z → string.

(** The [SongData] object [getCurrentPlayingSong] builds: the title is a
    string by construction, the URI and the progress are whatever the
    response had. *)
Record CurrentSong : Type := {
  song_displayTitle : string;
  song_uris : list JsValue;
  song_progress : JsValue;
}.

(** Every property read is outside any [try]: one on [null] or [undefined]
    makes the call reject. *)
Definition getSpotifyUserID (maps : TownsToPlayerMaps) (coveyTownID : string)
    (player : PlayerRef) : result JsValue :=
  let userInfo :=
    getSpotifyAPICallResponse maps "https://api.spotify.com/v1/me"
      coveyTownID player in
  match userInfo with
  | Some userJsonData => get_prop userJsonData "id"
  | None => Ok JUndefined
  end.

Definition getCurrentPlayingSong (maps : TownsToPlayerMaps) (coveyTownID : string)
    (player : PlayerRef) : result (option CurrentSong) :=
  let currentTrackInfo :=
    getSpotifyAPICallResponse maps
      "https://api.spotify.com/v1/me/player/currently-playing"
      coveyTownID player in
  match currentTrackInfo with
  | Some currentTrackJsonData =>
      match get_prop currentTrackJsonData "item" with
      | Throw e => Throw e
      | Ok item =>
          if truthy item then
            match get_prop item "name" with
            | Throw e => Throw e
            | Ok currentTrackTitle =>
                match get_prop item "album" with
                | Throw e => Throw e
                | Ok album =>
                    match get_prop album "artists" with
                    | Throw e => Throw e
                    | Ok artists =>
                        match get_index0 artists with
                        | Throw e => Throw e
                        | Ok artist =>
                            match get_prop artist "name" with
                            | Throw e => Throw e
                            | Ok currentTrackArtist =>
                                match interpolate Number_toString
                                        currentTrackTitle with
                                | Throw e => Throw e
                                | Ok titleText =>
                                match interpolate Number_toString
                                        currentTrackArtist with
                                | Throw e => Throw e
                                | Ok artistText =>
                                let currentTrackDisplayTitle :=
                                  titleText +:+ " by " +:+ artistText in
                                match get_prop item "uri" with
                                | Throw e => Throw e
                                | Ok currentSongUri =>
                                    match get_prop currentTrackJsonData
                                            "progress_ms" with
                                    | Throw e => Throw e
                                    | Ok currentTrackProgress =>
                                        Ok (Some
                                              {| song_displayTitle :=
                                                   currentTrackDisplayTitle;
                                                 song_uris := [currentSongUri];
                                                 song_progress :=
                                                   currentTrackProgress |})
                                    end
                                end
                                end
                                end
                            end
                        end
                    end
                end
            end
          else Ok None
      end
  | None => Ok None
  end.

End Runtime.

(** The calls that change the client's maps, to speak of sequences of
    them. *)
Inductive Mutation : Type :=
  | AddTown (coveyTownID : string)
  | RemoveTown (coveyTownID : string)
  | AddTownPlayer (coveyTownID : string) (player : PlayerRef)
      (spotifyToken : string)
  | RemoveTownPlayer (coveyTownID : string) (player : PlayerRef).

(** Whether a call is about this player of this town: a call on a town is
    about all its players. *)
Definition concerns (mu : Mutation) (coveyTownID : string) (player : PlayerRef)
  : bool :=
  match mu with
  | AddTown t | RemoveTown t => String.eqb t coveyTownID
  | AddTownPlayer t p _ | RemoveTownPlayer t p =>
      String.eqb t coveyTownID && String.eqb p player
  end.

Definition mutate (JSON_parse : string → option JsValue) (mu : Mutation)
    (maps : TownsToPlayerMaps) : TownsToPlayerMaps :=
  match mu with
  | AddTown t => addTownToClient t maps
  | RemoveTown t => removeTownFromClient t maps
  | AddTownPlayer t p token => (addTownPlayerToClient JSON_parse t p token maps).2
  | RemoveTownPlayer t p => removeTownPlayerFromClient t p maps
  end.

(** The static fields of the class: whether [_instance] is set, and
    [_townsToPlayerMaps]. *)
Record Statics : Type := {
  has_instance : bool;
  static_maps : TownsToPlayerMaps;
}.

(** [new SpotifyClient()]: the constructor replaces the static maps by an
    empty one. *)
Definition constructor (s : Statics) : Statics :=
  {| has_instance := has_instance s; static_maps := ∅ |}.

(** [getInstance()]: constructs the instance if there is none yet. *)
Definition getInstance (s : Statics) : Statics :=
  if has_instance s then s
  else {| has_instance := true; static_maps := static_maps (constructor s) |}.

End SpotifyClient.

(** ** The town controller

    The files [CoveyTownController.ts], [types/Player.ts],
    [types/PlayerSession.ts], [types/CoveyTownListener.ts] and
    [CoveyTypes.ts] are missing from the sources; the controller's test
    suite and its callers are there.  The controller is modelled from the
    specification, with the field names its tests and callers use. *)

Module CoveyTownController.

(** Modelled from the spec: [UserLocation] of the missing [CoveyTypes.ts],
    as the tests build it. *)
Record UserLocation : Type := {
  x : Z;
  y : Z;
  rotation : string;
  moving : bool;
  conversationLabel : option string;
}.

(** Modelled from the spec: the axis-aligned bounding box of a
    conversation area ([TownsServiceClient.ts] is missing). *)
Record BoundingBox : Type := {
  box_x : Z;
  box_y : Z;
  box_width : Z;
  box_height : Z;
}.

(** Modelled from the spec: [ServerConversationArea] of the missing
    [TownsServiceClient.ts]: label, topic, box and occupants in order. *)
Record ServerConversationArea : Type := {
  label : string;
  topic : string;
  boundingBox : BoundingBox;
  occupantsByID : list string;
}.

(** Modelled from the spec: a [Player] object of the missing
    [types/Player.ts].  Its reference to the conversation area it occupies
    is the area's label, resolved by lookup in the town's areas. *)
Record Player : Type := {
  id : string;
  userName : string;
  location : UserLocation;
  activeConversationArea : option string;
  spotifySong : option SongData;
}.

(** Modelled from the spec: [PlayerSession] of the missing
    [types/PlayerSession.ts]: a player with its two tokens. *)
Record PlayerSession : Type := {
  player : PlayerRef;
  sessionToken : string;
  videoToken : string;
}.

(** The controller only forwards chat messages. *)
Abbreviation ChatMessage := string.

(** Listeners are compared by identity. *)
Abbreviation Listener := nat.

(** Modelled from the spec: the calls of the [CoveyTownListener] interface
    ([types/CoveyTownListener.ts] is missing; the socket adapter of the
    request handlers implements these eight).  A player is passed by
    reference, a conversation area as it is at the time of the call. *)
Module CoveyTownListener.
Inductive Event : Type :=
  | onPlayerJoined (newPlayer : PlayerRef)
  | onPlayerMoved (movedPlayer : PlayerRef)
  | onPlayerDisconnected (removedPlayer : PlayerRef)
  | onPlayerSongUpdated (updatedPlayer : PlayerRef)
  | onTownDestroyed
  | onConversationAreaUpdated (conversation : ServerConversationArea)
  | onConversationAreaDestroyed (conversation : ServerConversationArea)
  | onChatMessage (message : ChatMessage).
End CoveyTownListener.
Abbreviation Event := CoveyTownListener.Event.

(** What an operation does to the outside, in order: a call on a listener,
    or a call to the music adapter or to the video token provider. *)
Inductive Effect : Type :=
  | Notify (listener : Listener) (event : Event)
  | StartPlayback (coveyTownID : string) (p : PlayerRef) (song : SongData)
  | QueryCurrentTrack (coveyTownID : string) (p : PlayerRef)
  | QueryPlaybackState (coveyTownID : string) (p : PlayerRef)
  | QueryVideoToken (coveyTownID : string) (playerID : string).

(** The three static methods of [SpotifyClient] the controller calls (its
    tests spy on [startUserPlayback], [getCurrentPlayingSong] and
    [getPlaybackState]), under the names the specification gives them and
    with the results the client's methods have: [startUserPlayback] settles
    with a boolean whatever happens, while each of the two queries settles
    with a value, with [undefined], or rejects. *)
Record MusicAdapter : Type := {
  startPlayback : string → PlayerRef → SongData → bool;
  getCurrentTrack : string → PlayerRef → result (option SongData);
  getPlaybackState : string → PlayerRef → result (option PlaybackState);
}.

(** The outside at the time of one operation: the music adapter, the video
    token provider ([None] when it fails) and the next random token. *)
Record Env : Type := {
  music : MusicAdapter;
  getTokenForTown : string → string → option string;
  nanoid : string;
}.

(** Modelled from the spec: the state of one town, that is, the fields of
    the missing [CoveyTownController] class, and the player objects it has
    been handed, by reference. *)
Record Town : Type := {
  coveyTownID : string;
  friendlyName : string;
  isPubliclyListed : bool;
  townUpdatePassword : string;
  players : list PlayerRef;
  sessions : list PlayerSession;
  conversationAreas : list ServerConversationArea;
  listeners : list Listener;
  heap : gmap PlayerRef Player;
}.

Definition set_friendlyName (v : string) (t : Town) : Town :=
  {| coveyTownID := coveyTownID t; friendlyName := v;
     isPubliclyListed := isPubliclyListed t;
     townUpdatePassword := townUpdatePassword t; players := players t;
     sessions := sessions t; conversationAreas := conversationAreas t;
     listeners := listeners t; heap := heap t |}.

Definition set_isPubliclyListed (v : bool) (t : Town) : Town :=
  {| coveyTownID := coveyTownID t; friendlyName := friendlyName t;
     isPubliclyListed := v;
     townUpdatePassword := townUpdatePassword t; players := players t;
     sessions := sessions t; conversationAreas := conversationAreas t;
     listeners := listeners t; heap := heap t |}.

Definition set_players (v : list PlayerRef) (t : Town) : Town :=
  {| coveyTownID := coveyTownID t; friendlyName := friendlyName t;
     isPubliclyListed := isPubliclyListed t;
     townUpdatePassword := townUpdatePassword t; players := v;
     sessions := sessions t; conversationAreas := conversationAreas t;
     listeners := listeners t; heap := heap t |}.

Definition set_sessions (v : list PlayerSession) (t : Town) : Town :=
  {| coveyTownID := coveyTownID t; friendlyName := friendlyName t;
     isPubliclyListed := isPubliclyListed t;
     townUpdatePassword := townUpdatePassword t; players := players t;
     sessions := v; conversationAreas := conversationAreas t;
     listeners := listeners t; heap := heap t |}.

Definition set_conversationAreas (v : list ServerConversationArea) (t : Town)
  : Town :=
  {| coveyTownID := coveyTownID t; friendlyName := friendlyName t;
     isPubliclyListed := isPubliclyListed t;
     townUpdatePassword := townUpdatePassword t; players := players t;
     sessions := sessions t; conversationAreas := v;
     listeners := listeners t; heap := heap t |}.

Definition set_listeners (v : list Listener) (t : Town) : Town :=
  {| coveyTownID := coveyTownID t; friendlyName := friendlyName t;
     isPubliclyListed := isPubliclyListed t;
     townUpdatePassword := townUpdatePassword t; players := players t;
     sessions := sessions t; conversationAreas := conversationAreas t;
     listeners := v; heap := heap t |}.

Definition set_heap (v : gmap PlayerRef Player) (t : Town) : Town :=
  {| coveyTownID := coveyTownID t; friendlyName := friendlyName t;
     isPubliclyListed := isPubliclyListed t;
     townUpdatePassword := townUpdatePassword t; players := players t;
     sessions := sessions t; conversationAreas := conversationAreas t;
     listeners := listeners t; heap := v |}.

Definition set_location (v : UserLocation) (p : Player) : Player :=
  {| id := id p; userName := userName p; location := v;
     activeConversationArea := activeConversationArea p;
     spotifySong := spotifySong p |}.

Definition set_activeConversationArea (v : option string) (p : Player) : Player :=
  {| id := id p; userName := userName p; location := location p;
     activeConversationArea := v; spotifySong := spotifySong p |}.

Definition set_spotifySong (v : option SongData) (p : Player) : Player :=
  {| id := id p; userName := userName p; location := location p;
     activeConversationArea := activeConversationArea p; spotifySong := v |}.

Definition set_occupantsByID (v : list string) (a : ServerConversationArea)
  : ServerConversationArea :=
  {| label := label a; topic := topic a; boundingBox := boundingBox a;
     occupantsByID := v |}.

(** *** Operations as state transformers that log their effects *)

Definition M (A : Type) : Type := Town → A * Town * list Effect.

Definition ret {A} (a : A) : M A := λ t, (a, t, []).

Definition bind {A B} (m : M A) (k : A → M B) : M B :=
  λ t, let '(a, t1, e1) := m t in
       let '(b, t2, e2) := k a t1 in
       (b, t2, e1 ++ e2).

Definition gets {A} (f : Town → A) : M A := λ t, (f t, t, []).

Definition modify (f : Town → Town) : M unit := λ t, ((), f t, []).

Definition call (e : Effect) : M unit := λ t, ((), t, [e]).

(** A call to the outside that answers: the call is logged with the
    arguments it is made on, and its answer is the value of the step. *)
Definition ask {A} (e : Effect) (answer : A) : M A := λ t, (answer, t, [e]).

(** [this._listeners.forEach(listener => listener.event(...))] *)
Definition notifyAll (event : Event) : M unit :=
  λ t, ((), t, map (λ l, Notify l event) (listeners t)).

#[export] Instance town_ret : MRet M := @ret.
#[export] Instance town_bind : MBind M := λ A B k m, bind m k.

Fixpoint forEach {A} (l : list A) (f : A → M unit) : M unit :=
  match l with
  | [] => ret ()
  | a :: rest => f a;; forEach rest f
  end.

Definition state_of {A} (r : A * Town * list Effect) : Town := snd (fst r).
Definition effects_of {A} (r : A * Town * list Effect) : list Effect := snd r.
Definition value_of {A} (r : A * Town * list Effect) : A := fst (fst r).

(** The notifications a listener received. *)
Definition delivered (l : Listener) (es : list Effect) : list Event :=
  omap (λ e, match e with
             | Notify l' ev => if Nat.eqb l l' then Some ev else None
             | _ => None
             end) es.

Definition is_notification_to (l : Listener) (e : Effect) : bool :=
  match e with Notify l' _ => Nat.eqb l l' | _ => false end.

Definition modify_player (p : PlayerRef) (f : Player → Player) : M unit :=
  modify (λ t, set_heap (alter f p (heap t)) t).

Definition find_area (lbl : string) (areas : list ServerConversationArea)
  : option ServerConversationArea :=
  List.find (λ a, String.eqb (label a) lbl) areas.

Definition is_occupant (p : PlayerRef) (a : ServerConversationArea) : bool :=
  existsb (String.eqb p) (occupantsByID a).

(** Modelled from the spec: [new Player(userName)] of [types/Player.ts],
    which is missing.  The specification gives a new player no conversation
    area and no song, and does not say where it stands: at the origin
    here. *)
Definition new_Player (playerID userName : string) : Player :=
  {| id := playerID; userName := userName;
     location := {| x := 0; y := 0; rotation := "front"; moving := false;
                    conversationLabel := None |};
     activeConversationArea := None; spotifySong := None |}.

(** *** Calls to the music adapter

    Each is one call: what is logged are the arguments the adapter is
    applied to. *)

Definition callStartPlayback (env : Env) (town : string) (p : PlayerRef)
    (song : SongData) : M bool :=
  ask (StartPlayback town p song) (startPlayback (music env) town p song).

Definition callGetCurrentTrack (env : Env) (town : string) (p : PlayerRef)
  : M (result (option SongData)) :=
  ask (QueryCurrentTrack town p) (getCurrentTrack (music env) town p).

Definition callGetPlaybackState (env : Env) (town : string) (p : PlayerRef)
  : M (result (option PlaybackState)) :=
  ask (QueryPlaybackState town p) (getPlaybackState (music env) town p).

(** *** The operations

    The methods of [CoveyTownController], each following the steps the
    specification gives for it, in that order. *)

Section Operations.

(** The specification leaves the test of a point against a bounding box to
    the implementation. *)
Variable contains : BoundingBox → Z → Z → bool.

(** The specification mandates a notification when [updatePlayerSongs] sets
    a song and none when it clears one, while the controller's tests expect
    listeners to hear of a player with nothing playing: whether a cleared
    song is notified is a parameter. *)
Variable notify_cleared : bool.

(** Modelled from the spec: [CoveyTownController.addTownListener], missing
    from the sources.  Listeners form a set under identity: adding one
    twice does not make it hear twice. *)
Definition addTownListener (listener : Listener) : M unit :=
  modify (λ t, if existsb (Nat.eqb listener) (listeners t) then t
               else set_listeners (listeners t ++ [listener]) t).

(** Modelled from the spec: [CoveyTownController.removeTownListener],
    missing from the sources. *)
Definition removeTownListener (listener : Listener) : M unit :=
  modify (λ t, set_listeners
                 (List.filter (λ l, negb (Nat.eqb listener l)) (listeners t)) t).

(** Modelled from the spec: [CoveyTownController.addPlayer], missing from
    the sources.  All or nothing: a failing video token provider leaves no
    session and no player behind, and the failure is passed on to the
    caller.  The player object enters the store of objects unless it is
    there already. *)
Definition addPlayer (env : Env) (newPlayer : Player) : M (result PlayerSession) :=
  let p := id newPlayer in
  modify (λ t, match heap t !! p with
               | Some _ => t
               | None => set_heap (<[p := newPlayer]> (heap t)) t
               end);;
  town ← gets coveyTownID;
  call (QueryVideoToken town p);;
  match getTokenForTown env town p with
  | None => mret (Throw ProviderError)
  | Some token =>
      let theSession :=
        {| player := p; sessionToken := nanoid env; videoToken := token |} in
      modify (λ t, set_sessions (sessions t ++ [theSession]) t);;
      modify (λ t, set_players (players t ++ [p]) t);;
      notifyAll (CoveyTownListener.onPlayerJoined p);;
      mret (Ok theSession)
  end.

(** Modelled from the spec: the removal of a player from a conversation
    area, shared by [updatePlayerLocation] and [destroySession] (missing
    from the sources).  Takes the player out of the occupants of the area
    of that label; an area left without occupants is destroyed and the
    listeners are told. *)
Definition removePlayerFromConversationArea (p : PlayerRef) (lbl : string)
  : M unit :=
  areas ← gets conversationAreas;
  match find_area lbl areas with
  | None => mret ()
  | Some a =>
      let remaining :=
        List.filter (λ o, negb (String.eqb o p)) (occupantsByID a) in
      match remaining with
      | [] =>
          modify (λ t, set_conversationAreas
                         (List.filter (λ c, negb (String.eqb (label c) lbl))
                            (conversationAreas t)) t);;
          notifyAll (CoveyTownListener.onConversationAreaDestroyed
                       (set_occupantsByID [] a))
      | _ =>
          modify (λ t, set_conversationAreas
                         (map (λ c, if String.eqb (label c) lbl
                                    then set_occupantsByID remaining c else c)
                            (conversationAreas t)) t)
      end
  end.

(** Modelled from the spec: the second half of step 2 of
    [updatePlayerLocation] (missing from the sources): the player is
    appended to the occupants of the area, and the listeners are told. *)
Definition addPlayerToConversationArea (p : PlayerRef) (lbl : string) : M unit :=
  areas ← gets conversationAreas;
  match find_area lbl areas with
  | None => mret ()
  | Some a =>
      let updated := set_occupantsByID (occupantsByID a ++ [p]) a in
      modify (λ t, set_conversationAreas
                     (map (λ c, if String.eqb (label c) lbl then updated else c)
                        (conversationAreas t)) t);;
      notifyAll (CoveyTownListener.onConversationAreaUpdated updated)
  end.

(** Modelled from the spec: step 1 of [updatePlayerLocation] (missing from
    the sources): an explicit label is authoritative, otherwise the area
    whose box holds the point. *)
Definition area_of_location (newLocation : UserLocation)
    (areas : list ServerConversationArea) : option ServerConversationArea :=
  match conversationLabel newLocation with
  | Some lbl => find_area lbl areas
  | None =>
      List.find (λ a, contains (boundingBox a) (x newLocation) (y newLocation))
        areas
  end.

(** Modelled from the spec: [CoveyTownController.updatePlayerLocation],
    missing from the sources: the membership is settled, the location
    stored, and [onPlayerMoved] sent in any case. *)
Definition updatePlayerLocation (p : PlayerRef) (newLocation : UserLocation)
  : M unit :=
  areas ← gets conversationAreas;
  prior ← gets (λ t, heap t !! p ≫= activeConversationArea);
  let new := label <$> area_of_location newLocation areas in
  (if decide (prior = new) then mret ()
   else
     match prior with
     | Some lbl => removePlayerFromConversationArea p lbl
     | None => mret ()
     end;;
     match new with
     | Some lbl => addPlayerToConversationArea p lbl
     | None => mret ()
     end;;
     modify_player p (set_activeConversationArea new));;
  modify_player p (set_location newLocation);;
  notifyAll (CoveyTownListener.onPlayerMoved p).

(** Modelled from the spec: [CoveyTownController.addConversationArea],
    missing from the sources: refused on a label already in use. *)
Definition addConversationArea (area : ServerConversationArea) : M bool :=
  areas ← gets conversationAreas;
  match find_area (label area) areas with
  | Some _ => mret false
  | None =>
      modify (λ t, set_conversationAreas (conversationAreas t ++ [area]) t);;
      mret true
  end.

(** Modelled from the spec: [CoveyTownController.destroySession], missing
    from the sources. *)
Definition destroySession (session : PlayerSession) : M unit :=
  let p := player session in
  areas ← gets conversationAreas;
  forEach (List.filter (is_occupant p) areas)
    (λ a, removePlayerFromConversationArea p (label a));;
  modify (λ t, set_players
                 (List.filter (λ q, negb (String.eqb q p)) (players t)) t);;
  modify (λ t, set_sessions
                 (List.filter
                    (λ s, negb (String.eqb (sessionToken s) (sessionToken session)))
                    (sessions t)) t);;
  notifyAll (CoveyTownListener.onPlayerDisconnected p).

(** Modelled from the spec: [CoveyTownController.disconnectAllPlayers],
    missing from the sources. *)
Definition disconnectAllPlayers : M unit :=
  notifyAll CoveyTownListener.onTownDestroyed;;
  modify (set_listeners []);;
  modify (set_players []);;
  modify (set_sessions []).

(** Modelled from the spec: [CoveyTownController.onChatMessage], missing
    from the sources: a pure fan-out. *)
Definition onChatMessage (message : ChatMessage) : M unit :=
  notifyAll (CoveyTownListener.onChatMessage message).

(** Modelled from the spec: the song [changePlayerSong] (missing from the
    sources) plays: the requested one, from its start. *)
Definition fromStart (songData : SongData) : SongData :=
  {| displayTitle := displayTitle songData; uris := uris songData;
     progress := 0 |}.

(** Modelled from the spec: [CoveyTownController.changePlayerSong], missing
    from the sources. *)
Definition changePlayerSong (env : Env) (p : PlayerRef) (songData : SongData)
  : M unit :=
  town ← gets coveyTownID;
  let song := fromStart songData in
  started ← callStartPlayback env town p song;
  if (started : bool) then
    modify_player p (set_spotifySong (Some song));;
    notifyAll (CoveyTownListener.onPlayerSongUpdated p)
  else mret ().

(** Modelled from the spec: the clearing branch of [updatePlayerSongs]
    (missing from the sources). *)
Definition clearPlayerSong (p : PlayerRef) : M unit :=
  modify_player p (set_spotifySong None);;
  if notify_cleared then notifyAll (CoveyTownListener.onPlayerSongUpdated p)
  else mret ().

(** Modelled from the spec: the part of [updatePlayerSongs] (missing from
    the sources) for one player: the two queries, then the song is set when
    the playback state reports playing and a track is returned, and cleared
    otherwise.  A query that rejects returns neither a track nor a state
    that reports playing: the song is cleared then too, and the players
    that follow are served as if nothing had happened, as the
    specification asks of a failed query. *)
Definition updatePlayerSong (env : Env) (p : PlayerRef) : M unit :=
  town ← gets coveyTownID;
  song ← callGetCurrentTrack env town p;
  state ← callGetPlaybackState env town p;
  match state, song with
  | Ok (Some st), Ok (Some s) =>
      if truthy (isPlaying st) then
        modify_player p (set_spotifySong (Some s));;
        notifyAll (CoveyTownListener.onPlayerSongUpdated p)
      else clearPlayerSong p
  | _, _ => clearPlayerSong p
  end.

(** Modelled from the spec: [CoveyTownController.updatePlayerSongs],
    missing from the sources. *)
Definition updatePlayerSongs (env : Env) : M unit :=
  ps ← gets players;
  forEach ps (updatePlayerSong env).

(** The operations a town undergoes once its listeners are settled, each
    with the outside it meets. *)
Inductive Op : Type :=
  | UpdatePlayerLocation (p : PlayerRef) (newLocation : UserLocation)
  | DestroySession (session : PlayerSession)
  | AddPlayer (newPlayer : Player)
  | DisconnectAllPlayers
  | UpdatePlayerSongs
  | ChangePlayerSong (p : PlayerRef) (songData : SongData)
  | OnChatMessage (message : ChatMessage).

Definition step (env : Env) (op : Op) : M unit :=
  match op with
  | UpdatePlayerLocation p newLocation => updatePlayerLocation p newLocation
  | DestroySession session => destroySession session
  | AddPlayer newPlayer => addPlayer env newPlayer;; mret ()
  | DisconnectAllPlayers => disconnectAllPlayers
  | UpdatePlayerSongs => updatePlayerSongs env
  | ChangePlayerSong p songData => changePlayerSong env p songData
  | OnChatMessage message => onChatMessage message
  end.

Definition run (ops : list (Env * Op)) : M unit :=
  forEach ops (λ '(env, op), step env op).

End Operations.

(** *** Reading the log of effects *)

Definition is_startPlayback (e : Effect) : bool :=
  match e with StartPlayback _ _ _ => true | _ => false end.






(** The town with one listener taken out: the state [removeTownListener]
    leaves. *)
Definition without (l : Listener) (t : Town) : Town :=
  set_listeners (List.filter (λ l', negb (Nat.eqb l l')) (listeners t)) t.

(** The log with the calls on one listener taken out. *)
Definition others (l : Listener) (es : list Effect) : list Effect :=
  List.filter (λ e, negb (is_notification_to l e)) es.

(** An operation respects the removal of [l] when running it on the town
    without [l] gives the same value, the same town without [l], and the
    same effects but for the calls on [l]. *)
Definition respects_removal (l : Listener) {A} (m : M A) : Prop :=
  ∀ t, m (without l t)
       = let '(a, t', es) := m t in (a, without l t', others l es).

(** An operation keeps the listeners free of duplicates. *)
Definition keeps_set {A} (m : M A) : Prop :=
  ∀ t, NoDup (listeners t) → NoDup (listeners (state_of (m t))).

(** Modelled from the spec: [CoveyTownController.getSessionByToken],
    missing from the sources; the handlers call it to authenticate a
    session token against the town's sessions. *)
Definition getSessionByToken (token : string) (t : Town) : option PlayerSession :=
  List.find (λ s, String.eqb (sessionToken s) token) (sessions t).

End CoveyTownController.

(** ** The towns store

    [CoveyTownsStore.ts] is missing from the sources.  The store is the
    list of the town controllers; a controller is changed in place, that
    is, replaced in the list under its id. *)

Module CoveyTownsStore.
Import CoveyTownController.

(** Modelled from the spec: an entry of [listTowns] ([CoveyTypes.ts] is
    missing). *)
Record TownListing : Type := {
  listing_coveyTownID : string;
  listing_friendlyName : string;
  listing_isPubliclyListed : bool;
  listing_currentOccupancy : nat;
}.

(** Modelled from the spec: [CoveyTownsStore.getControllerForTown],
    missing from the sources. *)
Definition getControllerForTown (coveyTownID : string) (towns : list Town)
  : option Town :=
  List.find (λ t, String.eqb (CoveyTownController.coveyTownID t) coveyTownID)
    towns.

(** The store after a controller it holds was changed in place. *)
Definition putController (t : Town) (towns : list Town) : list Town :=
  map (λ t', if String.eqb (CoveyTownController.coveyTownID t')
                  (CoveyTownController.coveyTownID t)
             then t else t') towns.

(** Modelled from the spec: [CoveyTownsStore.getTowns] (the specification's
    [listTowns]), missing from the sources: the listed towns only. *)
Definition getTowns (towns : list Town) : list TownListing :=
  map (λ t, {| listing_coveyTownID := CoveyTownController.coveyTownID t;
               listing_friendlyName := friendlyName t;
               listing_isPubliclyListed := isPubliclyListed t;
               listing_currentOccupancy := length (players t) |})
    (List.filter isPubliclyListed towns).

(** Modelled from the spec: [CoveyTownsStore.createTown], missing from the
    sources.  Fails on an empty name ([None]); otherwise builds the town
    under a fresh id and a random password and indexes it. *)
Definition createTown (freshID freshPassword : string)
    (friendlyName : string) (isPubliclyListed : bool) (towns : list Town)
  : option Town * list Town :=
  if String.eqb friendlyName "" then (None, towns)
  else
    let newTown :=
      {| coveyTownID := freshID; friendlyName := friendlyName;
         isPubliclyListed := isPubliclyListed;
         townUpdatePassword := freshPassword;
         players := []; sessions := []; conversationAreas := [];
         listeners := []; heap := ∅ |} in
    (Some newTown, (towns ++ [newTown])).

(** Modelled from the spec: [CoveyTownsStore.deleteTown], missing from the
    sources.  Succeeds only on an exact password match; then disconnects
    all players and takes the town out of the index. *)
Definition deleteTown (coveyTownID coveyTownPassword : string)
    (towns : list Town) : bool * list Town * list Effect :=
  match getControllerForTown coveyTownID towns with
  | Some existingTown =>
      if String.eqb coveyTownPassword (townUpdatePassword existingTown) then
        let '(_, _, effects) := disconnectAllPlayers existingTown in
        (true,
         List.filter
           (λ t, negb (String.eqb (CoveyTownController.coveyTownID t) coveyTownID))
           towns,
         effects)
      else (false, towns, [])
  | None => (false, towns, [])
  end.

(** Modelled from the spec: [CoveyTownsStore.updateTown], missing from the
    sources.  Succeeds only on a password match and at least one valid
    field, an empty name being rejected; only the fields given are
    updated. *)
Definition updateTown (coveyTownID coveyTownPassword : string)
    (friendlyName : option string) (makePublic : option bool)
    (towns : list Town) : bool * list Town :=
  match getControllerForTown coveyTownID towns with
  | Some existingTown =>
      if String.eqb coveyTownPassword (townUpdatePassword existingTown) then
        match friendlyName, makePublic with
        | None, None => (false, towns)
        | Some name, _ =>
            if String.eqb name "" then (false, towns)
            else
              let renamed := set_friendlyName name existingTown in
              let updated :=
                match makePublic with
                | Some listed => set_isPubliclyListed listed renamed
                | None => renamed
                end in
              (true, putController updated towns)
        | None, Some listed =>
            (true, putController (set_isPubliclyListed listed existingTown) towns)
        end
      else (false, towns)
  | None => (false, towns)
  end.

End CoveyTownsStore.

(** ** The request handlers ([CoveyTownRequestHandlers.ts]) *)

Module CoveyTownRequestHandlers.
Import CoveyTownController.

Record TownJoinRequest : Type := {
  join_userName : string;
  join_coveyTownID : string;
  spotifySessionToken : option string;
}.

Record TownJoinResponse : Type := {
  coveyUserID : string;
  coveySessionToken : string;
  providerVideoToken : string;
  currentPlayers : list PlayerRef;
  join_friendlyName : string;
  join_isPubliclyListed : bool;
  join_conversationAreas : list ServerConversationArea;
}.

Record TownCreateRequest : Type := {
  create_friendlyName : string;
  create_isPubliclyListed : bool;
}.

Record TownCreateResponse : Type := {
  create_coveyTownID : string;
  coveyTownPassword : string;
}.

Record TownListResponse : Type := {
  towns_listed : list CoveyTownsStore.TownListing;
}.

Record TownDeleteRequest : Type := {
  delete_coveyTownID : string;
  delete_coveyTownPassword : string;
}.

Record TownUpdateRequest : Type := {
  update_coveyTownID : string;
  update_coveyTownPassword : string;
  update_friendlyName : option string;
  update_isPubliclyListed : option bool;
}.

Record ResponseEnvelope (T : Type) : Type := {
  isOK : bool;
  message : option string;
  response : option T;
}.
Arguments isOK {T} _.
Arguments message {T} _.
Arguments response {T} _.

(** The envelope carries a payload when it reports success and a message
    when it reports failure. *)
Definition well_formed {T} (e : ResponseEnvelope T) : Prop :=
  if isOK e then is_Some (response e) else is_Some (message e).

(** The process: the store's towns and the Spotify client's maps. *)
Record World : Type := {
  towns : list Town;
  townsToPlayerMaps : SpotifyClient.TownsToPlayerMaps;
}.

(** The outside at the time of one request: what the controller meets, and
    the ids drawn for a new player and a new town. *)
Record Outside : Type := {
  env : Env;
  newPlayerID : string;
  newTownID : string;
  newTownPassword : string;
}.

(** What a handler hands back: its value or the exception it lets through,
    the process afterwards, and the effects on listeners and collaborators. *)
Definition Handled (T : Type) : Type :=
  result (ResponseEnvelope T) * World * list Effect.

Definition outcome {T} (h : Handled T) : result (ResponseEnvelope T) :=
  fst (fst h).
Definition world_after {T} (h : Handled T) : World := snd (fst h).

Section Handlers.

Variable JSON_parse : string → option JsValue.

Definition townJoinHandler (out : Outside) (requestData : TownJoinRequest)
    (w : World) : Handled TownJoinResponse :=
  match CoveyTownsStore.getControllerForTown (join_coveyTownID requestData)
          (towns w) with
  | None =>
      (Ok {| isOK := false; message := Some "Error: No such town";
             response := None |}, w, [])
  | Some coveyTownController =>
      let newPlayer := new_Player (newPlayerID out) (join_userName requestData) in
      let '(added, controller', effects) :=
        addPlayer (env out) newPlayer coveyTownController in
      let towns' := CoveyTownsStore.putController controller' (towns w) in
      match added with
      | Throw e =>
          (Throw e,
           {| towns := towns'; townsToPlayerMaps := townsToPlayerMaps w |},
           effects)
      | Ok newSession =>
          let '(linked, maps') :=
            match spotifySessionToken requestData with
            | Some token =>
                if String.eqb token "" then (Ok (), townsToPlayerMaps w)
                else SpotifyClient.addTownPlayerToClient JSON_parse
                       (join_coveyTownID requestData) (id newPlayer) token
                       (townsToPlayerMaps w)
            | None => (Ok (), townsToPlayerMaps w)
            end in
          let w' := {| towns := towns'; townsToPlayerMaps := maps' |} in
          match linked with
          | Throw e => (Throw e, w', effects)
          | Ok _ =>
              if String.eqb (videoToken newSession) ""
              then (Throw AssertionError, w', effects)
              else
                (Ok {| isOK := true; message := None;
                       response :=
                         Some {| coveyUserID := id newPlayer;
                                 coveySessionToken := sessionToken newSession;
                                 providerVideoToken := videoToken newSession;
                                 currentPlayers := players controller';
                                 join_friendlyName := friendlyName controller';
                                 join_isPubliclyListed :=
                                   isPubliclyListed controller';
                                 join_conversationAreas :=
                                   conversationAreas controller' |} |},
                 w', effects)
          end
      end
  end.

Definition townListHandler (w : World) : Handled TownListResponse :=
  (Ok {| isOK := true; message := None;
         response :=
           Some {| towns_listed := CoveyTownsStore.getTowns (towns w) |} |},
   w, []).

(** Were [createTown] to fail, reading [newTown.coveyTownID] would throw. *)
Definition townCreateHandler (out : Outside) (requestData : TownCreateRequest)
    (w : World) : Handled TownCreateResponse :=
  if (String.length (create_friendlyName requestData) =? 0)%nat then
    (Ok {| isOK := false; message := Some "FriendlyName must be specified";
           response := None |}, w, [])
  else
    match CoveyTownsStore.createTown (newTownID out) (newTownPassword out)
            (create_friendlyName requestData)
            (create_isPubliclyListed requestData) (towns w) with
    | (None, towns') =>
        (Throw TypeError,
         {| towns := towns'; townsToPlayerMaps := townsToPlayerMaps w |}, [])
    | (Some newTown, towns') =>
        (Ok {| isOK := true; message := None;
               response :=
                 Some {| create_coveyTownID :=
                           CoveyTownController.coveyTownID newTown;
                         coveyTownPassword := townUpdatePassword newTown |} |},
         {| towns := towns';
            townsToPlayerMaps :=
              SpotifyClient.addTownToClient
                (CoveyTownController.coveyTownID newTown)
                (townsToPlayerMaps w) |},
         [])
    end.

Definition townDeleteHandler (requestData : TownDeleteRequest) (w : World)
  : Handled unit :=
  let '(success, towns', effects) :=
    CoveyTownsStore.deleteTown (delete_coveyTownID requestData)
      (delete_coveyTownPassword requestData) (towns w) in
  let maps' :=
    SpotifyClient.removeTownFromClient (delete_coveyTownID requestData)
      (townsToPlayerMaps w) in
  (Ok {| isOK := success; response := Some ();
         message :=
           if negb success
           then Some "Invalid password. Please double check your town update password."
           else None |},
   {| towns := towns'; townsToPlayerMaps := maps' |}, effects).

Definition townUpdateHandler (requestData : TownUpdateRequest) (w : World)
  : Handled unit :=
  let '(success, towns') :=
    CoveyTownsStore.updateTown (update_coveyTownID requestData)
      (update_coveyTownPassword requestData)
      (update_friendlyName requestData)
      (update_isPubliclyListed requestData) (towns w) in
  (Ok {| isOK := success; response := Some ();
         message :=
           if negb success
           then Some "Invalid password or update values specified. Please double check your town update password."
           else None |},
   {| towns := towns'; townsToPlayerMaps := townsToPlayerMaps w |}, []).

(** What linking the credential of a join request does, as the join handler
    goes about it: nothing without a credential or with an empty one. *)
Definition credential_linking (out : Outside) (requestData : TownJoinRequest)
    (w : World) : result unit :=
  match spotifySessionToken requestData with
  | Some token =>
      if String.eqb token "" then Ok ()
      else (SpotifyClient.addTownPlayerToClient JSON_parse
              (join_coveyTownID requestData) (newPlayerID out) token
              (townsToPlayerMaps w)).1
  | None => Ok ()
  end.

End Handlers.

(** *** The conversation area handler and the socket *)

Record ConversationAreaCreateRequest : Type := {
  area_coveyTownID : string;
  area_sessionToken : string;
  conversationArea : ServerConversationArea;
}.

(** The message of both refusals of [conversationAreaCreateHandler]. *)
Definition unable_to_create (area : ServerConversationArea) : string :=
  "Unable to create conversation area " +:+ label area +:+ " with topic "
  +:+ topic area.

Definition conversationAreaCreateHandler
    (_requestData : ConversationAreaCreateRequest) (w : World) : Handled unit :=
  let refused :=
    {| isOK := false; response := Some ();
       message := Some (unable_to_create (conversationArea _requestData)) |} in
  match CoveyTownsStore.getControllerForTown (area_coveyTownID _requestData)
          (towns w) with
  | None => (Ok refused, w, [])
  | Some townController =>
      match getSessionByToken (area_sessionToken _requestData) townController with
      | None => (Ok refused, w, [])
      | Some _ =>
          let '(success, controller', effects) :=
            addConversationArea (conversationArea _requestData) townController in
          (Ok {| isOK := success; response := Some ();
                 message :=
                   if negb success
                   then Some (unable_to_create (conversationArea _requestData))
                   else None |},
           {| towns := CoveyTownsStore.putController controller' (towns w);
              townsToPlayerMaps := townsToPlayerMaps w |},
           effects)
      end
  end.

(** What a listener call passes on to the socket. *)
Inductive SocketArg : Type :=
  | PlayerArg (p : PlayerRef)
  | ConversationArg (conversation : ServerConversationArea)
  | MessageArg (message : ChatMessage).

(** A call on the socket: [socket.emit(event, ...args)],
    [socket.disconnect(close)] or [socket.on(event, callback)]; what the
    callback registered for an event does is [socket_on], below. *)
Inductive SocketCall : Type :=
  | Emit (event : string) (args : list SocketArg)
  | Disconnect (close : bool)
  | On (event : string).

(** [townSocketAdapter(socket)]: what each call on the listener it returns
    does to the socket. *)
Definition townSocketAdapter (event : Event) : list SocketCall :=
  match event with
  | CoveyTownListener.onPlayerMoved movedPlayer =>
      [Emit "playerMoved" [PlayerArg movedPlayer]]
  | CoveyTownListener.onPlayerSongUpdated updatedPlayer =>
      [Emit "playerSongUpdated" [PlayerArg updatedPlayer]]
  | CoveyTownListener.onPlayerDisconnected removedPlayer =>
      [Emit "playerDisconnect" [PlayerArg removedPlayer]]
  | CoveyTownListener.onPlayerJoined newPlayer =>
      [Emit "newPlayer" [PlayerArg newPlayer]]
  | CoveyTownListener.onTownDestroyed =>
      [Emit "townClosing" []; Disconnect true]
  | CoveyTownListener.onConversationAreaDestroyed conversation =>
      [Emit "conversationDestroyed" [ConversationArg conversation]]
  | CoveyTownListener.onConversationAreaUpdated conversation =>
      [Emit "conversationUpdated" [ConversationArg conversation]]
  | CoveyTownListener.onChatMessage message =>
      [Emit "chatMessage" [MessageArg message]]
  end.

(** The event names a list of calls emits under, in order. *)
Definition emitted (calls : list SocketCall) : list string :=
  flat_map (λ c, match c with Emit event _ => [event] | _ => [] end) calls.

(** The event names a list of calls registers a callback for, in order. *)
Definition registered (calls : list SocketCall) : list string :=
  flat_map (λ c, match c with On event => [event] | _ => [] end) calls.

(** Whether two calls on a listener are calls of the same method. *)
Definition same_method (e1 e2 : Event) : bool :=
  match e1, e2 with
  | CoveyTownListener.onPlayerJoined _, CoveyTownListener.onPlayerJoined _
  | CoveyTownListener.onPlayerMoved _, CoveyTownListener.onPlayerMoved _
  | CoveyTownListener.onPlayerDisconnected _,
    CoveyTownListener.onPlayerDisconnected _
  | CoveyTownListener.onPlayerSongUpdated _,
    CoveyTownListener.onPlayerSongUpdated _
  | CoveyTownListener.onTownDestroyed, CoveyTownListener.onTownDestroyed
  | CoveyTownListener.onConversationAreaUpdated _,
    CoveyTownListener.onConversationAreaUpdated _
  | CoveyTownListener.onConversationAreaDestroyed _,
    CoveyTownListener.onConversationAreaDestroyed _
  | CoveyTownListener.onChatMessage _, CoveyTownListener.onChatMessage _ => true
  | _, _ => false
  end.

(** The calls a log of effects makes on the socket behind a listener. *)
Definition socket_calls (listener : Listener) (es : list Effect)
  : list SocketCall :=
  flat_map townSocketAdapter (delivered listener es).

(** [socket.handshake.auth] *)
Record SocketAuth : Type := {
  auth_token : string;
  auth_coveyTownID : string;
}.

(** What [townSubscriptionHandler] leaves behind: nothing, or the callbacks
    registered for the session it found. *)
Inductive Subscription : Type :=
  | Refused
  | Subscribed (s : PlayerSession).

(** [townSubscriptionHandler(socket)].  [listener] is the identity of the
    adapter object built for this socket.  Returned are what is left
    behind, the world, and the calls made on the socket, in order: one
    [disconnect] when the connection is refused, the four [socket.on]
    registrations when it is accepted. *)
Definition townSubscriptionHandler (listener : Listener) (auth : SocketAuth)
    (w : World) : Subscription * World * list SocketCall :=
  let townController :=
    CoveyTownsStore.getControllerForTown (auth_coveyTownID auth) (towns w) in
  let s := townController ≫= getSessionByToken (auth_token auth) in
  match s, townController with
  | Some s, Some townController =>
      let '(_, controller', _) := addTownListener listener townController in
      (Subscribed s,
       {| towns := CoveyTownsStore.putController controller' (towns w);
          townsToPlayerMaps := townsToPlayerMaps w |},
       [On "disconnect"; On "chatMessage"; On "playerMovement";
        On "playerSongRequest"])
  | _, _ => (Refused, w, [Disconnect true])
  end.

(** The events of the socket for which the handler registers a callback,
    with what the socket passes to the callback. *)
Inductive SocketEvent : Type :=
  | SocketDisconnect
  | SocketChatMessage (message : ChatMessage)
  | SocketPlayerMovement (movementData : UserLocation)
  | SocketPlayerSongRequest (songData : SongData).

(** The name each of them is registered under. *)
Definition socket_event_name (event : SocketEvent) : string :=
  match event with
  | SocketDisconnect => "disconnect"
  | SocketChatMessage _ => "chatMessage"
  | SocketPlayerMovement _ => "playerMovement"
  | SocketPlayerSongRequest _ => "playerSongRequest"
  end.

Section Callbacks.

Variable contains : BoundingBox → Z → Z → bool.

(** The callbacks [townSubscriptionHandler] registers with [socket.on].
    They hold on to the controller, the session, the town id and the
    listener of the subscription, and act on that controller and on the
    Spotify client's maps. *)
Definition socket_on (e : Env) (coveyTownID : string) (s : PlayerSession)
    (listener : Listener) (event : SocketEvent)
    (townController : Town) (maps : SpotifyClient.TownsToPlayerMaps)
  : Town * SpotifyClient.TownsToPlayerMaps * list Effect :=
  match event with
  | SocketDisconnect =>
      let maps' :=
        SpotifyClient.removeTownPlayerFromClient coveyTownID (player s) maps in
      let '(_, t', es) :=
        (removeTownListener listener;; destroySession s) townController in
      (t', maps', es)
  | SocketChatMessage message =>
      let '(_, t', es) := onChatMessage message townController in
      (t', maps, es)
  | SocketPlayerMovement movementData =>
      let '(_, t', es) :=
        updatePlayerLocation contains (player s) movementData townController in
      (t', maps, es)
  | SocketPlayerSongRequest songData =>
      let '(_, t', es) :=
        changePlayerSong e (player s) songData townController in
      (t', maps, es)
  end.

End Callbacks.

End CoveyTownRequestHandlers.

(** ** Concrete towns, requests and collaborators

    Data in the manner of the controller's test suite, on which the model
    is run. *)

Module Examples.
Import CoveyTownController CoveyTownRequestHandlers.

Definition testSong : SongData :=
  {| displayTitle := "Testing Song by Tests";
     uris := ["spotify:track:t35t1ng123ur1"]; progress := 2000 |}.

Definition testSongFromStart : SongData :=
  {| displayTitle := "Testing Song by Tests";
     uris := ["spotify:track:t35t1ng123ur1"]; progress := 0 |}.

Definition testArea : ServerConversationArea :=
  {| label := "area-1"; topic := "a topic";
     boundingBox := {| box_x := 10; box_y := 10; box_width := 5; box_height := 5 |};
     occupantsByID := [] |}.

(** Outside the box of [testArea], and naming it. *)
Definition labelledLocation : UserLocation :=
  {| x := 25; y := 25; rotation := "front"; moving := false;
     conversationLabel := Some "area-1" |}.

Definition player1 : Player := new_Player "player-1" "test player 1".
Definition player2 : Player := new_Player "player-2" "test player 2".

Definition testingTown : Town :=
  {| coveyTownID := "town-1"; friendlyName := "testing town";
     isPubliclyListed := false; townUpdatePassword := "secret";
     players := ["player-1"; "player-2"];
     sessions :=
       [ {| player := "player-1"; sessionToken := "session-1";
            videoToken := "video-1" |};
         {| player := "player-2"; sessionToken := "session-2";
            videoToken := "video-2" |} ];
     conversationAreas := [testArea];
     listeners := [1; 2; 3]%nat;
     heap := <["player-1" := player1]> (<["player-2" := player2]> ∅) |}.

(** An inclusive test on the box taken from its corner. *)
Definition inside (box : BoundingBox) (px py : Z) : bool :=
  (box_x box <=? px) && (px <=? box_x box + box_width box)
  && (box_y box <=? py) && (py <=? box_y box + box_height box).

(** An adapter that starts any playback and reports [testSong] playing for
    [player-1] only; a video token provider that works. *)
Definition workingEnv : Env :=
  {| music :=
       {| startPlayback := λ _ _ _, true;
          getCurrentTrack := λ _ p,
            if String.eqb p "player-1" then Ok (Some testSong) else Ok None;
          getPlaybackState := λ _ _, Ok (Some {| isPlaying := JBool true |}) |};
     getTokenForTown := λ _ _, Some "video-3";
     nanoid := "session-3" |}.

(** An adapter that refuses to play and reports nothing; a video token
    provider that fails. *)
Definition failingEnv : Env :=
  {| music :=
       {| startPlayback := λ _ _ _, false;
          getCurrentTrack := λ _ _, Ok None;
          getPlaybackState := λ _ _, Ok None |};
     getTokenForTown := λ _ _, None;
     nanoid := "session-3" |}.

Definition workingOutside : Outside :=
  {| env := workingEnv; newPlayerID := "player-3"; newTownID := "town-2";
     newTownPassword := "secret-2" |}.

Definition failingOutside : Outside :=
  {| env := failingEnv; newPlayerID := "player-3"; newTownID := "town-2";
     newTownPassword := "secret-2" |}.

(** The credential of the test suite:
    [{"access_token":"test_token_1", "expiry":3600}]. *)
Definition testCredential : string :=
  "{" +:+ quoted "access_token" +:+ ":" +:+ quoted "test_token_1" +:+ ", "
  +:+ quoted "expiry" +:+ ":3600}".

Definition testToken : SpotifyClient.SpotifyToken :=
  {| SpotifyClient.accessToken := JStr "test_token_1";
     SpotifyClient.expiry := JNum 3600 0 |}.

(** The process with [testingTown] in the store and registered with the
    Spotify client, [player-1] having linked an account. *)
Definition testingWorld : World :=
  {| towns := [testingTown];
     townsToPlayerMaps := {[ "town-1" := {[ "player-1" := testToken ]} ]} |}.

(** A music service that plays a song from its start only. *)
Definition fromStartOnly (url : string) (body : SpotifyClient.PlayBody)
    (token : JsValue) : bool :=
  SpotifyClient.body_progress_ms body =? 0.

(** The Spotify client, over that service and the maps of [testingWorld],
    as the adapter. *)
Definition clientEnv : Env :=
  {| music :=
       {| startPlayback :=
            SpotifyClient.startUserPlayback fromStartOnly
              (townsToPlayerMaps testingWorld);
          getCurrentTrack := λ _ _, Ok None;
          getPlaybackState := λ _ _, Ok None |};
     getTokenForTown := λ _ _, Some "video-3";
     nanoid := "session-3" |}.


Definition joinRequest (credential : option string) : TownJoinRequest :=
  {| join_userName := "test player 3"; join_coveyTownID := "town-1";
     spotifySessionToken := credential |}.

Definition wrongPasswordDelete : TownDeleteRequest :=
  {| delete_coveyTownID := "town-1"; delete_coveyTownPassword := "wrong" |}.

(** A playback-state response with nothing loaded but the flag set. *)
Definition noItemBody : JsValue := JObj [("is_playing", JBool true)].

(** A currently-playing response for a track with two artists. *)
Definition trackBody : JsValue :=
  JObj [ ("progress_ms", JNum 2000 0); ("is_playing", JBool true);
         ("item",
          JObj [ ("name", JStr "Testing Song");
                 ("uri", JStr "spotify:track:t35t1ng123ur1");
                 ("album",
                  JObj [ ("artists",
                          JArr [ JObj [("name", JStr "Tests")];
                                 JObj [("name", JStr "Others")] ]) ]) ]) ].

(** A currently-playing response for an item that has no album. *)
Definition episodeBody : JsValue :=
  JObj [ ("progress_ms", JNum 10 0);
         ("item",
          JObj [ ("name", JStr "An episode");
                 ("uri", JStr "spotify:episode:3p150d3") ]) ].

(** A stand-in for the runtime's printing of numbers; the bodies above
    interpolate strings only. *)
Definition printNumber (m e : Z) : string := pretty m +:+ "e" +:+ pretty e.

(** The parsed [testCredential]. *)
Definition testCredentialJson : JsValue :=
  JObj [("access_token", JStr "test_token_1"); ("expiry", JNum 3600 0)].

Definition session1 : PlayerSession :=
  {| player := "player-1"; sessionToken := "session-1"; videoToken := "video-1" |}.


(** A currently-playing response for a track whose name is an object with a
    member called [toString]. *)
Definition unprintableBody : JsValue :=
  JObj [ ("progress_ms", JNum 2000 0);
         ("item",
          JObj [ ("name", JObj [("toString", JStr "Testing Song")]);
                 ("uri", JStr "spotify:track:t35t1ng123ur1");
                 ("album",
                  JObj [ ("artists",
                          JArr [ JObj [("name", JStr "Tests")] ]) ]) ]) ].

Definition createRequest : TownCreateRequest :=
  {| create_friendlyName := "a new town"; create_isPubliclyListed := true |}.

(** A request to create [testArea] in [testingTown] under a session token
    that no session has. *)
Definition strangerAreaRequest : ConversationAreaCreateRequest :=
  {| area_coveyTownID := "town-1"; area_sessionToken := "no such session";
     conversationArea := testArea |}.

End Examples.

(** * Properties *)

Import CoveyTownController.

(** ** The Spotify client *)

Section SpotifyClientFacts.

Variable JSON_parse : string → option JsValue.
Variable axios_get : string → JsValue → option JsValue.
Variable axios_put : string → SpotifyClient.PlayBody → JsValue → bool.

Implicit Types (maps : SpotifyClient.TownsToPlayerMaps) (player : PlayerRef).

Lemma getToken_unregistered maps coveyTownID player :
  maps !! coveyTownID = None →
  SpotifyClient.getTokenForTownPlayer maps coveyTownID player = JUndefined.
Proof.
  intros Hnone. unfold SpotifyClient.getTokenForTownPlayer.
  now rewrite Hnone.
Qed.

(** The [try] block stores nothing unless it runs to its end. *)
Lemma addTownPlayerToClient_try_throw coveyTownID player spotifyToken maps e maps' :
  SpotifyClient.addTownPlayerToClient_try JSON_parse coveyTownID player
    spotifyToken maps = (Throw e, maps') →
  maps' = maps.
Proof.
  unfold SpotifyClient.addTownPlayerToClient_try.
  destruct (JSON_parse spotifyToken) as [tokenJson|]; [|congruence].
  destruct (get_prop tokenJson "access_token"); [|congruence].
  destruct (get_prop tokenJson "expiry"); congruence.
Qed.

(** Whenever [addTownPlayerToClient] raises, the maps are as before. *)
Lemma addTownPlayerToClient_throw_unchanged coveyTownID player spotifyToken maps e maps' :
  SpotifyClient.addTownPlayerToClient JSON_parse coveyTownID player
    spotifyToken maps = (Throw e, maps') →
  maps' = maps ∧ e = SpotifyClient.parse_error spotifyToken.
Proof.
  unfold SpotifyClient.addTownPlayerToClient.
  destruct (SpotifyClient.addTownPlayerToClient_try _ _ _ _ _)
    as [[u|e0] m0] eqn:Htry; [congruence|].
  apply addTownPlayerToClient_try_throw in Htry. intros [= <- <-]. now subst.
Qed.

Lemma addTownPlayerToClient_syntax_error coveyTownID player spotifyToken maps :
  JSON_parse spotifyToken = None →
  SpotifyClient.addTownPlayerToClient JSON_parse coveyTownID player
    spotifyToken maps
  = (Throw (SpotifyClient.parse_error spotifyToken), maps).
Proof.
  intros Hparse.
  unfold SpotifyClient.addTownPlayerToClient,
    SpotifyClient.addTownPlayerToClient_try.
  now rewrite Hparse.
Qed.

(** C8: a credential that does not parse as JSON makes
    [addTownPlayerToClient] raise the parse error, and the
    town-to-player-token maps are exactly what they were: nothing is stored
    for any town or player. *)
Theorem addTownPlayerToClient_unparseable coveyTownID player spotifyToken maps :
  JSON_parse spotifyToken = None →
  let r := SpotifyClient.addTownPlayerToClient JSON_parse coveyTownID player
             spotifyToken maps in
  r.1 = Throw (SpotifyClient.parse_error spotifyToken)
  ∧ r.2 = maps
  ∧ (∀ town p, SpotifyClient.getTokenForTownPlayer r.2 town p
               = SpotifyClient.getTokenForTownPlayer maps town p).
Proof.
  intros Hparse r. subst r.
  rewrite addTownPlayerToClient_syntax_error by assumption.
  now repeat split.
Qed.

(** C9, as amended: for a town that is not registered, a credential that
    parses to a value other than [null] is accepted without an error and
    nothing is stored, so the player has no token afterwards; a credential
    that parses to [null] raises the parse error, and nothing is stored
    either. *)
Theorem addTownPlayerToClient_unregistered coveyTownID player spotifyToken maps tokenJson :
  maps !! coveyTownID = None →
  JSON_parse spotifyToken = Some tokenJson →
  tokenJson ≠ JUndefined →
  let r := SpotifyClient.addTownPlayerToClient JSON_parse coveyTownID player
             spotifyToken maps in
  r.2 = maps
  ∧ SpotifyClient.getTokenForTownPlayer r.2 coveyTownID player = JUndefined
  ∧ (tokenJson ≠ JNull → r.1 = Ok ())
  ∧ (tokenJson = JNull → r.1 = Throw (SpotifyClient.parse_error spotifyToken)).
Proof.
  intros Hnone Hparse Hdef r. subst r.
  unfold SpotifyClient.addTownPlayerToClient,
    SpotifyClient.addTownPlayerToClient_try.
  rewrite Hparse, Hnone.
  destruct tokenJson; simpl; try congruence;
    (split; [reflexivity|]);
    (split; [now apply getToken_unregistered|]);
    split; congruence.
Qed.

(** C10, as amended: [getPlaybackState] hands back a playback state only
    when the call came back with a body whose [item] is present; a body
    other than [null] and [undefined] can be read for its [item], and when
    it has none the result is absent, whatever [is_playing] says, which is
    also the result of a failed call; a body that is [null] or [undefined]
    makes the call reject with a TypeError instead. *)
Theorem getPlaybackState_item maps coveyTownID player :
  let response :=
    axios_get "https://api.spotify.com/v1/me/player"
      (SpotifyClient.getTokenForTownPlayer maps coveyTownID player) in
  let result :=
    SpotifyClient.getPlaybackState axios_get maps coveyTownID player in
  (∀ state, result = Ok (Some state) →
     ∃ body item,
       response = Some body ∧ get_prop body "item" = Ok item
       ∧ truthy item = true
       ∧ get_prop body "is_playing" = Ok (isPlaying state))
  ∧ (∀ body,
       response = Some body → nullish body = false →
       ∃ item, get_prop body "item" = Ok item
               ∧ (truthy item = false → result = Ok None))
  ∧ (response = None → result = Ok None)
  ∧ (∀ body,
       response = Some body → nullish body = true → result = Throw TypeError).
Proof.
  intros response result. subst response result.
  unfold SpotifyClient.getPlaybackState, SpotifyClient.getSpotifyAPICallResponse.
  destruct (axios_get _ _) as [body|]; repeat split; try congruence.
  - intros state Hres. destruct (get_prop body "item") as [item|] eqn:Hitem;
      [|congruence].
    destruct (truthy item) eqn:Htruthy; [|congruence].
    destruct (get_prop body "is_playing") as [playing|] eqn:Hplaying;
      [|congruence].
    injection Hres as <-. now exists body, item.
  - intros b [= <-] Hbody.
    destruct body; try discriminate; cbn; eexists;
      (split; [reflexivity|]); try (intros ->; reflexivity);
      try reflexivity; try discriminate.
  - intros b [= <-] Hbody. destruct body; try discriminate; reflexivity.
Qed.

(** [startUserPlayback] sends the song's URIs and its progress as they
    are. *)
Lemma startUserPlayback_body maps coveyTownID player songData :
  SpotifyClient.startUserPlayback axios_put maps coveyTownID player songData
  = axios_put "https://api.spotify.com/v1/me/player/play"
      {| SpotifyClient.body_uris := uris songData;
         SpotifyClient.body_progress_ms := progress songData |}
      (SpotifyClient.getTokenForTownPlayer maps coveyTownID player).
Proof. reflexivity. Qed.

End SpotifyClientFacts.

(** ** The town controller: fan-out *)

Section FanOut.

Implicit Types (l : Listener) (ls : list Listener) (ev : Event) (t : Town).

Lemma delivered_app l (es1 es2 : list Effect) :
  delivered l (es1 ++ es2) = delivered l es1 ++ delivered l es2.
Proof. unfold delivered. apply omap_app. Qed.

Lemma delivered_fanout_absent l ls ev :
  l ∉ ls → delivered l (map (λ l', Notify l' ev) ls) = [].
Proof.
  induction ls as [|l' ls IH]; intros Hnotin; [reflexivity|].
  apply not_elem_of_cons in Hnotin as [Hne Hnotin]. cbn.
  destruct (Nat.eqb_spec l l') as [->|_]; [congruence|].
  now apply IH.
Qed.

(** Over a duplicate-free list of listeners, a fan-out reaches each of them
    once and nobody else. *)
Lemma delivered_fanout l ls ev :
  NoDup ls →
  delivered l (map (λ l', Notify l' ev) ls)
  = if bool_decide (l ∈ ls) then [ev] else [].
Proof.
  induction 1 as [|l' ls Hnotin Hnodup IH]; [reflexivity|]. cbn.
  destruct (Nat.eqb_spec l l') as [->|Hne].
  - rewrite bool_decide_eq_true_2 by apply list_elem_of_here.
    fold (delivered l' (map (λ l0, Notify l0 ev) ls)).
    now rewrite delivered_fanout_absent.
  - fold (delivered l (map (λ l0, Notify l0 ev) ls)). rewrite IH.
    destruct (decide (l ∈ ls)) as [Hin|Hnin].
    + rewrite !bool_decide_eq_true_2; [reflexivity| |assumption].
      now apply list_elem_of_further.
    + rewrite !bool_decide_eq_false_2; [reflexivity| |assumption].
      intros [->|?]%elem_of_cons; contradiction.
Qed.

End FanOut.

(** Unfolds the operations down to pairs of state and effects. *)
Ltac run_town :=
  unfold mbind, mret, town_bind, town_ret, bind, ret, gets, modify, call,
    callStartPlayback, callGetCurrentTrack, callGetPlaybackState, ask,
    notifyAll, modify_player, state_of, effects_of, value_of in *;
  cbn [fst snd] in *.

(** ** The town controller: running operations in sequence *)

Section Sequencing.

Context {A B : Type}.
Implicit Types (m : M A) (k : A → M B) (t : Town).

Lemma state_of_bind m k t :
  state_of ((m ≫= k) t) = state_of (k (value_of (m t)) (state_of (m t))).
Proof.
  run_town. destruct (m t) as [[a t1] e1]. cbn.
  now destruct (k a t1) as [[b t2] e2].
Qed.


End Sequencing.

(** ** The town controller: the listeners form a set *)

Section ListenerSet.

Variable contains : BoundingBox → Z → Z → bool.
Variable notify_cleared : bool.

Lemma keeps_set_bind {A B} (m : M A) (k : A → M B) :
  keeps_set m → (∀ a, keeps_set (k a)) → keeps_set (m ≫= k).
Proof.
  intros Hm Hk t Hnodup. rewrite state_of_bind. now apply Hk, Hm.
Qed.

Lemma keeps_set_read {A} (m : M A) :
  (∀ t, listeners (state_of (m t)) = listeners t) → keeps_set m.
Proof. intros Hm t Hnodup. now rewrite Hm. Qed.

Lemma keeps_set_forEach {A} (xs : list A) (f : A → M unit) :
  (∀ a, keeps_set (f a)) → keeps_set (forEach xs f).
Proof.
  intros Hf. induction xs as [|a xs IH]; cbn [forEach].
  - now apply keeps_set_read.
  - apply keeps_set_bind; [apply Hf|intros _; apply IH].
Qed.

(** Chains the lemmas above along the shape of an operation; a step that
    leaves the listeners alone is closed by computation. *)
Ltac keeps_set_steps :=
  repeat first
    [ apply keeps_set_read; reflexivity
    | apply keeps_set_bind; [|intros ?] ].

Lemma addTownListener_keeps_set listener : keeps_set (addTownListener listener).
Proof.
  intros t Hnodup. unfold addTownListener. run_town.
  destruct (existsb (Nat.eqb listener) (listeners t)) eqn:Hknown;
    [assumption|]. cbn.
  apply NoDup_app. split; [assumption|]. split; [|apply NoDup_singleton].
  intros l Hin ->%list_elem_of_singleton.
  assert (existsb (Nat.eqb listener) (listeners t) = true) as Hyes; [|congruence].
  apply existsb_exists. exists listener.
  split; [now apply list_elem_of_In|apply Nat.eqb_refl].
Qed.

Lemma removeTownListener_keeps_set listener :
  keeps_set (removeTownListener listener).
Proof.
  intros t Hnodup. unfold removeTownListener. run_town. cbn.
  apply NoDup_ListNoDup, List.NoDup_filter. now apply NoDup_ListNoDup.
Qed.

Lemma removePlayerFromConversationArea_keeps_set p lbl :
  keeps_set (removePlayerFromConversationArea p lbl).
Proof.
  unfold removePlayerFromConversationArea.
  apply keeps_set_bind; [keeps_set_steps|intros areas].
  destruct (find_area lbl areas) as [area|]; keeps_set_steps.
  destruct (List.filter _ _); keeps_set_steps.
Qed.

Lemma step_keeps_set env op : keeps_set (step contains notify_cleared env op).
Proof.
  destruct op; cbn [step].
  - unfold updatePlayerLocation, addPlayerToConversationArea.
    apply keeps_set_bind; [keeps_set_steps|intros areas].
    apply keeps_set_bind; [keeps_set_steps|intros prior].
    apply keeps_set_bind; [|intros _; keeps_set_steps].
    destruct (decide _); keeps_set_steps.
    + destruct prior; [apply removePlayerFromConversationArea_keeps_set|].
      keeps_set_steps.
    + destruct (label <$> _); keeps_set_steps.
      destruct (find_area _ _); keeps_set_steps.
  - unfold destroySession.
    apply keeps_set_bind; [keeps_set_steps|intros areas].
    apply keeps_set_bind; [|intros _; keeps_set_steps].
    apply keeps_set_forEach. intros area.
    apply removePlayerFromConversationArea_keeps_set.
  - unfold addPlayer.
    apply keeps_set_bind; [|intros _; apply keeps_set_read; reflexivity].
    apply keeps_set_bind; [|intros _].
    { apply keeps_set_read. intros t. run_town. cbn.
      now destruct (heap t !! id newPlayer). }
    apply keeps_set_bind; [keeps_set_steps|intros town].
    apply keeps_set_bind; [keeps_set_steps|intros _].
    destruct (getTokenForTown env town _); keeps_set_steps.
  - unfold disconnectAllPlayers.
    apply keeps_set_bind; [keeps_set_steps|intros _].
    apply keeps_set_bind; [|intros _; keeps_set_steps].
    intros t _. cbn. apply NoDup_nil_2.
  - unfold updatePlayerSongs.
    apply keeps_set_bind; [keeps_set_steps|intros ps].
    apply keeps_set_forEach. intros p.
    unfold updatePlayerSong, clearPlayerSong.
    apply keeps_set_bind; [keeps_set_steps|intros town].
    apply keeps_set_bind; [keeps_set_steps|intros song].
    apply keeps_set_bind; [keeps_set_steps|intros state].
    destruct state as [[st|]|], song as [[s|]|];
      try destruct (truthy _); try destruct notify_cleared; keeps_set_steps.
  - unfold changePlayerSong.
    apply keeps_set_bind; [keeps_set_steps|intros town].
    apply keeps_set_bind; [keeps_set_steps|intros started].
    destruct started; keeps_set_steps.
  - unfold onChatMessage. keeps_set_steps.
Qed.

(** However a town's listeners were added and removed, and whatever
    operations ran in between, no listener is subscribed twice. *)
Lemma run_keeps_set ops : keeps_set (run contains notify_cleared ops).
Proof.
  unfold run. apply keeps_set_forEach. intros [env op]. apply step_keeps_set.
Qed.

End ListenerSet.

(** ** The town controller: songs *)

Section Songs.

Implicit Types (t : Town) (p : PlayerRef) (env : Env).

(** C1: when the adapter's [startPlayback] succeeds, [changePlayerSong]
    leaves the player with the requested song, its progress at 0, as its
    [spotifySong] and with its other fields as they were, leaves every
    other player as it was, and every subscribed listener gets
    [onPlayerSongUpdated] exactly once (and nobody else gets anything);
    when it fails, the town is unchanged, so the player's [spotifySong] is
    what it was, and no listener is notified. *)
Theorem changePlayerSong_outcome env t p (pl : Player) (songData : SongData) :
  heap t !! p = Some pl →
  NoDup (listeners t) →
  let r := changePlayerSong env p songData t in
  let song :=
    {| displayTitle := displayTitle songData; uris := uris songData;
       progress := 0 |} in
  (startPlayback (music env) (coveyTownID t) p song = true →
     heap (state_of r) !! p
     = Some {| id := id pl; userName := userName pl; location := location pl;
               activeConversationArea := activeConversationArea pl;
               spotifySong := Some song |}
     ∧ (spotifySong <$> heap (state_of r) !! p) = Some (Some song)
     ∧ (∀ q, q ≠ p → heap (state_of r) !! q = heap t !! q)
     ∧ ∀ l, delivered l (effects_of r)
            = if bool_decide (l ∈ listeners t)
              then [CoveyTownListener.onPlayerSongUpdated p] else [])
  ∧ (startPlayback (music env) (coveyTownID t) p song = false →
     state_of r = t
     ∧ (spotifySong <$> heap (state_of r) !! p) = Some (spotifySong pl)
     ∧ ∀ l, delivered l (effects_of r) = []).
Proof.
  intros Hp Hnodup r song. subst r song.
  unfold changePlayerSong, fromStart. run_town.
  split; intros Hplay; rewrite Hplay; run_town; cbn.
  - rewrite lookup_alter_eq, Hp. cbn.
    split; [reflexivity|]. split; [reflexivity|]. split.
    + intros q Hne. now rewrite lookup_alter_ne by congruence.
    + intros l. now apply delivered_fanout.
  - rewrite Hp. now repeat split.
Qed.

Lemma filter_fanout (f : Effect → bool) (ls : list Listener) ev :
  (∀ l, f (Notify l ev) = false) →
  List.filter f (map (λ l, Notify l ev) ls) = [].
Proof.
  intros Hf. induction ls as [|l ls IH]; [reflexivity|].
  cbn. now rewrite Hf.
Qed.

(** C2: [changePlayerSong] calls the adapter's [startPlayback] exactly
    once, for this town and this player, with the title and the URIs of the
    requested song and the progress 0.  The answer to that very call, and
    nothing else of the adapter, decides what [changePlayerSong] does, and
    the progress the request carried plays no part in it.  With
    [SpotifyClient.startUserPlayback] as the adapter, the call is the
    request to play those URIs from 0 ms with the player's token, and the
    song is set exactly when that request succeeds. *)
Theorem changePlayerSong_startPlayback env t p (songData : SongData)
    (axios_put : string → SpotifyClient.PlayBody → JsValue → bool)
    (maps : SpotifyClient.TownsToPlayerMaps) :
  let song :=
    {| displayTitle := displayTitle songData; uris := uris songData;
       progress := 0 |} in
  let r := changePlayerSong env p songData t in
  let sent :=
    axios_put "https://api.spotify.com/v1/me/player/play"
      {| SpotifyClient.body_uris := uris songData;
         SpotifyClient.body_progress_ms := 0 |}
      (SpotifyClient.getTokenForTownPlayer maps (coveyTownID t) p) in
  List.filter is_startPlayback (effects_of r)
  = [StartPlayback (coveyTownID t) p song]
  ∧ (∀ env',
       startPlayback (music env') (coveyTownID t) p song
       = startPlayback (music env) (coveyTownID t) p song →
       changePlayerSong env' p songData t = r)
  ∧ (∀ supplied,
       changePlayerSong env p
         {| displayTitle := displayTitle songData; uris := uris songData;
            progress := supplied |} t
       = r)
  ∧ (startPlayback (music env)
     = SpotifyClient.startUserPlayback axios_put maps →
     (sent = true →
        (spotifySong <$> heap (state_of r) !! p)
        = ((λ _, Some song) <$> heap t !! p))
     ∧ (sent = false → state_of r = t)).
Proof.
  intros song r sent. subst song r sent. split; [|split; [|split]].
  - unfold changePlayerSong, fromStart. run_town.
    destruct (startPlayback _ _ _ _); run_town; cbn; [|reflexivity].
    now rewrite filter_fanout.
  - intros env' Hsame. unfold changePlayerSong, fromStart in *. run_town.
    now rewrite Hsame.
  - intros supplied. reflexivity.
  - intros Hclient. unfold changePlayerSong, fromStart. run_town.
    rewrite Hclient. unfold SpotifyClient.startUserPlayback.
    cbn [uris progress].
    split; intros ->; run_town; cbn; [|reflexivity].
    rewrite lookup_alter_eq. now destruct (heap t !! p).
Qed.

End Songs.

(** ** The town controller: polling the songs *)

Section SongPolling.

Variable notify_cleared : bool.

Implicit Types (t : Town) (p q : PlayerRef) (env : Env).








End SongPolling.

(** ** The town controller: conversation areas *)

Section Areas.

Implicit Types (t : Town) (p : PlayerRef) (lbl other : string)
  (a : ServerConversationArea) (areas : list ServerConversationArea).







End Areas.

(** ** The town controller: movement *)

Section Movement.

Variable contains : BoundingBox → Z → Z → bool.

Implicit Types (t : Town) (p : PlayerRef).


End Movement.

(** ** The town controller: removing a listener *)

Section Unsubscribed.

Variable l : Listener.

Local Abbreviation respects := (respects_removal l).

Lemma respects_ret {A} (a : A) : respects (mret a).
Proof. intros t. reflexivity. Qed.

Lemma respects_bind {A B} (m : M A) (k : A → M B) :
  respects m → (∀ a, respects (k a)) → respects (m ≫= k).
Proof.
  intros Hm Hk t. run_town. rewrite Hm. destruct (m t) as [[a t1] e1].
  rewrite Hk. destruct (k a t1) as [[b t2] e2]. unfold others.
  now rewrite List.filter_app.
Qed.

Lemma respects_gets {A} (f : Town → A) :
  (∀ t, f (without l t) = f t) → respects (gets f).
Proof. intros Hf t. unfold gets. now rewrite Hf. Qed.

Lemma respects_modify (g : Town → Town) :
  (∀ t, g (without l t) = without l (g t)) → respects (modify g).
Proof. intros Hg t. unfold modify. now rewrite Hg. Qed.

Lemma respects_call (e : Effect) :
  is_notification_to l e = false → respects (call e).
Proof. intros He t. unfold call, others. cbn. now rewrite He. Qed.

Lemma respects_ask {A} (e : Effect) (answer : A) :
  is_notification_to l e = false → respects (ask e answer).
Proof. intros He t. unfold ask, others. cbn. now rewrite He. Qed.

Lemma respects_notifyAll (ev : Event) : respects (notifyAll ev).
Proof.
  intros t. unfold notifyAll, others, without. cbn. f_equal.
  induction (listeners t) as [|l' ls IH]; [reflexivity|]. cbn.
  destruct (Nat.eqb l l'); cbn; now rewrite IH.
Qed.

Lemma respects_forEach {A} (xs : list A) (f : A → M unit) :
  (∀ a, respects (f a)) → respects (forEach xs f).
Proof.
  intros Hf. induction xs as [|a xs IH]; cbn [forEach].
  - apply respects_ret.
  - apply respects_bind; [apply Hf|intros _; apply IH].
Qed.

Lemma respects_modify_player p (f : Player → Player) :
  respects (modify_player p f).
Proof. apply respects_modify. reflexivity. Qed.

(** Chains the lemmas above along the shape of an operation. *)
Ltac respects_steps :=
  repeat first
    [ apply respects_bind; [|intros ?]
    | apply respects_ret
    | apply respects_notifyAll
    | apply respects_modify_player
    | apply respects_gets; reflexivity
    | apply respects_modify; reflexivity
    | apply respects_call; reflexivity
    | apply respects_ask; reflexivity ].

Variable contains : BoundingBox → Z → Z → bool.
Variable notify_cleared : bool.

Lemma respects_removePlayerFromConversationArea p lbl :
  respects (removePlayerFromConversationArea p lbl).
Proof.
  unfold removePlayerFromConversationArea.
  apply respects_bind; [respects_steps|intros areas].
  destruct (find_area lbl areas) as [area|]; respects_steps.
  destruct (List.filter _ _); respects_steps.
Qed.

Lemma respects_addPlayerToConversationArea p lbl :
  respects (addPlayerToConversationArea p lbl).
Proof.
  unfold addPlayerToConversationArea.
  apply respects_bind; [respects_steps|intros areas].
  destruct (find_area lbl areas) as [area|]; respects_steps.
Qed.

Lemma respects_updatePlayerLocation p newLocation :
  respects (updatePlayerLocation contains p newLocation).
Proof.
  unfold updatePlayerLocation.
  apply respects_bind; [respects_steps|intros areas].
  apply respects_bind; [respects_steps|intros prior].
  apply respects_bind; [|intros _; respects_steps].
  destruct (decide _); [apply respects_ret|].
  apply respects_bind;
    [|intros _; apply respects_bind; [|intros _; respects_steps]].
  - destruct prior; [apply respects_removePlayerFromConversationArea|].
    apply respects_ret.
  - destruct (label <$> _);
      [apply respects_addPlayerToConversationArea|]. apply respects_ret.
Qed.

Lemma respects_destroySession session : respects (destroySession session).
Proof.
  unfold destroySession.
  apply respects_bind; [respects_steps|intros areas].
  apply respects_bind; [|intros _; respects_steps].
  apply respects_forEach. intros area.
  apply respects_removePlayerFromConversationArea.
Qed.

Lemma respects_addPlayer env newPlayer : respects (addPlayer env newPlayer).
Proof.
  unfold addPlayer.
  apply respects_bind; [|intros _].
  { apply respects_modify. intros t. cbn.
    now destruct (heap t !! id newPlayer). }
  apply respects_bind; [respects_steps|intros town].
  apply respects_bind; [respects_steps|intros _].
  destruct (getTokenForTown env town _); respects_steps.
Qed.

Lemma respects_disconnectAllPlayers : respects disconnectAllPlayers.
Proof. unfold disconnectAllPlayers. respects_steps. Qed.

Lemma respects_changePlayerSong env p songData :
  respects (changePlayerSong env p songData).
Proof.
  unfold changePlayerSong.
  apply respects_bind; [respects_steps|intros town].
  apply respects_bind; [respects_steps|intros started].
  destruct started; respects_steps.
Qed.

Lemma respects_updatePlayerSongs env :
  respects (updatePlayerSongs notify_cleared env).
Proof.
  unfold updatePlayerSongs.
  apply respects_bind; [respects_steps|intros ps].
  apply respects_forEach. intros p.
  unfold updatePlayerSong, clearPlayerSong.
  apply respects_bind; [respects_steps|intros town].
  apply respects_bind; [respects_steps|intros song].
  apply respects_bind; [respects_steps|intros state].
  destruct state as [[st|]|], song as [[s|]|];
    try destruct (truthy _); try destruct notify_cleared; respects_steps.
Qed.

Lemma respects_run ops : respects (run contains notify_cleared ops).
Proof.
  unfold run. apply respects_forEach. intros [env op].
  destruct op; cbn [step].
  - apply respects_updatePlayerLocation.
  - apply respects_destroySession.
  - apply respects_bind; [apply respects_addPlayer|intros; apply respects_ret].
  - apply respects_disconnectAllPlayers.
  - apply respects_updatePlayerSongs.
  - apply respects_changePlayerSong.
  - unfold onChatMessage. apply respects_notifyAll.
Qed.

Lemma delivered_others_self (es : list Effect) : delivered l (others l es) = [].
Proof.
  induction es as [|e es IH]; [reflexivity|]. unfold others in *. cbn.
  destruct e as [l' ev| | | |]; cbn; try assumption.
  destruct (Nat.eqb l l') eqn:Heq; cbn; [assumption|]. now rewrite Heq.
Qed.

Lemma delivered_others_other l' (es : list Effect) :
  l' ≠ l → delivered l' (others l es) = delivered l' es.
Proof.
  intros Hne. induction es as [|e es IH]; [reflexivity|].
  unfold others in *. cbn.
  destruct e as [l0 ev| | | |]; cbn; try assumption.
  destruct (Nat.eqb_spec l l0) as [<-|Hl0]; cbn.
  - destruct (Nat.eqb_spec l' l); [congruence|assumption].
  - fold (delivered l' (List.filter (λ e, negb (is_notification_to l e)) es)).
    fold (delivered l' es). now rewrite IH.
Qed.

(** C7: once [removeTownListener l] has run, no sequence of
    [updatePlayerLocation], [destroySession], [addPlayer],
    [disconnectAllPlayers], [updatePlayerSongs], [changePlayerSong] and
    [onChatMessage] delivers anything to [l], and every other listener
    receives exactly what it would have received had [l] stayed: the
    effects are those of the same operations on the town before the
    removal, less the calls on [l]. *)
Theorem removeTownListener_silences t (ops : list (Env * Op)) :
  let quiet := state_of (removeTownListener l t) in
  let after := effects_of (run contains notify_cleared ops quiet) in
  let before := effects_of (run contains notify_cleared ops t) in
  (l ∉ listeners quiet)
  ∧ delivered l after = []
  ∧ after = others l before
  ∧ (∀ l', l' ≠ l → delivered l' after = delivered l' before).
Proof.
  intros quiet after before.
  assert (quiet = without l t) as Hquiet by reflexivity.
  assert (after = others l before) as Hafter.
  { subst after before. rewrite Hquiet, respects_run.
    now destruct (run contains notify_cleared ops t) as [[[] t'] es]. }
  split; [|split; [|split]].
  - rewrite Hquiet. unfold without. cbn.
    intros Hin%list_elem_of_In%filter_In. destruct Hin as [_ Hneq].
    now rewrite Nat.eqb_refl in Hneq.
  - rewrite Hafter. apply delivered_others_self.
  - exact Hafter.
  - intros l' Hne. rewrite Hafter. now apply delivered_others_other.
Qed.

End Unsubscribed.

(** ** The request handlers *)

Import CoveyTownRequestHandlers.

Section HandlerFacts.

Variable JSON_parse : string → option JsValue.

Implicit Types (w : World) (out : Outside).

Lemma addPlayer_value env (newPlayer : Player) (t : Town) :
  value_of (addPlayer env newPlayer t)
  = match getTokenForTown env (coveyTownID t) (id newPlayer) with
    | None => Throw ProviderError
    | Some token =>
        Ok {| player := id newPlayer; sessionToken := nanoid env;
              videoToken := token |}
    end.
Proof.
  unfold addPlayer. run_town.
  destruct (heap t !! id newPlayer); cbn;
    destruct (getTokenForTown env (coveyTownID t) (id newPlayer));
    reflexivity.
Qed.

(** With a wrong password the delete handler reports the failure and the
    store keeps its towns, but the town is taken out of the Spotify
    client's maps all the same. *)
Lemma townDeleteHandler_wrong_password (requestData : TownDeleteRequest) w (town : Town) :
  CoveyTownsStore.getControllerForTown (delete_coveyTownID requestData) (towns w)
  = Some town →
  delete_coveyTownPassword requestData ≠ townUpdatePassword town →
  townDeleteHandler requestData w
  = (Ok {| isOK := false;
           message := Some "Invalid password. Please double check your town update password.";
           response := Some () |},
     {| towns := towns w;
        townsToPlayerMaps :=
          delete (delete_coveyTownID requestData) (townsToPlayerMaps w) |},
     []).
Proof.
  intros Hfind Hwrong. unfold townDeleteHandler, CoveyTownsStore.deleteTown.
  rewrite Hfind.
  destruct (String.eqb_spec (delete_coveyTownPassword requestData)
              (townUpdatePassword town)); [contradiction|reflexivity].
Qed.

Lemma getControllerForTown_id coveyTownID (store : list Town) (town : Town) :
  CoveyTownsStore.getControllerForTown coveyTownID store = Some town →
  CoveyTownController.coveyTownID town = coveyTownID.
Proof.
  intros [_ Heq]%find_some. now apply String.eqb_eq.
Qed.

(** Whatever the join handler returns is a proper envelope. *)
Lemma townJoinHandler_returns out (requestData : TownJoinRequest) w e :
  outcome (townJoinHandler JSON_parse out requestData w) = Ok e →
  well_formed e.
Proof.
  unfold townJoinHandler.
  destruct (CoveyTownsStore.getControllerForTown _ _) as [town|];
    [|intros [= <-]; cbn; eauto].
  destruct (addPlayer _ _ town) as [[[session|] t'] es]; [|discriminate].
  destruct (match spotifySessionToken requestData with
            | Some _ => _ | None => _ end) as [[|] maps']; [|discriminate].
  destruct (String.eqb (videoToken session) ""); [discriminate|].
  intros [= <-]. cbn. eauto.
Qed.

(** The Spotify client forgets the town of a delete request, whatever the
    store made of the request. *)
Lemma townDeleteHandler_unregisters (requestData : TownDeleteRequest) w :
  townsToPlayerMaps (world_after (townDeleteHandler requestData w))
  = delete (delete_coveyTownID requestData) (townsToPlayerMaps w).
Proof.
  unfold townDeleteHandler.
  now destruct (CoveyTownsStore.deleteTown _ _ _) as [[success towns'] es].
Qed.

(** C5, as amended: the list, create, delete and update handlers always
    return an envelope, with a payload on success and a message on failure,
    and never throw.  The join handler returns a failure envelope when the
    town does not exist and a success envelope when the join goes through,
    and whatever it returns is such an envelope; but it passes the
    exception on to its caller when the video token provider fails, when
    linking the credential raises (as it does for a credential that does
    not parse), and when the provider's token is empty. *)
Theorem handlers_envelopes out w :
  (∃ e, outcome (townListHandler w) = Ok e ∧ well_formed e)
  ∧ (∀ requestData,
       ∃ e, outcome (townCreateHandler out requestData w) = Ok e ∧ well_formed e)
  ∧ (∀ requestData,
       ∃ e, outcome (townDeleteHandler requestData w) = Ok e ∧ well_formed e)
  ∧ (∀ requestData,
       ∃ e, outcome (townUpdateHandler requestData w) = Ok e ∧ well_formed e)
  ∧ (∀ requestData : TownJoinRequest,
       let joined := outcome (townJoinHandler JSON_parse out requestData w) in
       let found :=
         CoveyTownsStore.getControllerForTown (join_coveyTownID requestData)
           (towns w) in
       let linking := credential_linking JSON_parse out requestData w in
       (∀ e, joined = Ok e → well_formed e)
       ∧ (found = None →
          joined = Ok {| isOK := false; message := Some "Error: No such town";
                         response := None |})
       ∧ (∀ town, found = Some town →
          getTokenForTown (env out) (coveyTownID town) (newPlayerID out) = None →
          joined = Throw ProviderError)
       ∧ (∀ town videoToken e, found = Some town →
          getTokenForTown (env out) (coveyTownID town) (newPlayerID out)
          = Some videoToken →
          linking = Throw e → joined = Throw e)
       ∧ (∀ credential,
          spotifySessionToken requestData = Some credential →
          credential ≠ "" → JSON_parse credential = None →
          linking = Throw (SpotifyClient.parse_error credential))
       ∧ (∀ town, found = Some town →
          getTokenForTown (env out) (coveyTownID town) (newPlayerID out)
          = Some "" →
          linking = Ok () → joined = Throw AssertionError)
       ∧ (∀ town videoToken, found = Some town →
          getTokenForTown (env out) (coveyTownID town) (newPlayerID out)
          = Some videoToken →
          videoToken ≠ "" → linking = Ok () →
          ∃ e, joined = Ok e ∧ isOK e = true ∧ is_Some (response e))).
Proof.
  split; [|split; [|split; [|split]]].
  - eexists. split; [reflexivity|]. cbn. eauto.
  - intros requestData. unfold townCreateHandler, CoveyTownsStore.createTown.
    destruct (create_friendlyName requestData) as [|c name] eqn:Hname; cbn.
    + eexists. split; [reflexivity|]. cbn. eauto.
    + eexists. split; [reflexivity|]. cbn. eauto.
  - intros requestData. unfold townDeleteHandler.
    destruct (CoveyTownsStore.deleteTown _ _ _) as [[[|] towns'] es]; cbn;
      eexists; (split; [reflexivity|]); cbn; eauto.
  - intros requestData. unfold townUpdateHandler.
    destruct (CoveyTownsStore.updateTown _ _ _ _ _) as [[|] towns']; cbn;
      eexists; (split; [reflexivity|]); cbn; eauto.
  - intros requestData joined found linking.
    split; [intros e; apply townJoinHandler_returns|].
    assert (∀ credential,
              spotifySessionToken requestData = Some credential →
              credential ≠ "" → JSON_parse credential = None →
              linking = Throw (SpotifyClient.parse_error credential))
      as Hunparseable.
    { intros credential Hcred Hne Hparse. subst linking.
      unfold credential_linking. rewrite Hcred.
      destruct (String.eqb_spec credential ""); [contradiction|].
      now rewrite (addTownPlayerToClient_syntax_error _ _ _ _ _ Hparse). }
    subst joined found linking. unfold townJoinHandler, credential_linking in *.
    destruct (CoveyTownsStore.getControllerForTown _ _) as [town|];
      (split; [try discriminate; reflexivity|]).
    + pose proof (addPlayer_value (env out)
                    (new_Player (newPlayerID out) (join_userName requestData))
                    town) as Hvalue.
      cbn [id new_Player] in *.
      destruct (addPlayer _ _ town) as [[added t'] es].
      unfold value_of in Hvalue. cbn [fst] in Hvalue. subst added.
      split; [|split; [|split; [exact Hunparseable|split]]].
      * intros town0 [= <-] Hprovider. now rewrite Hprovider.
      * intros town0 token e [= <-] Hprovider Hlink. rewrite Hprovider.
        destruct (spotifySessionToken requestData) as [credential|];
          [|discriminate].
        destruct (String.eqb credential ""); [discriminate|].
        destruct (SpotifyClient.addTownPlayerToClient _ _ _ _ _)
          as [linked maps']. cbn in Hlink. now subst linked.
      * intros town0 [= <-] Hprovider Hlink. rewrite Hprovider.
        destruct (spotifySessionToken requestData) as [credential|];
          [|reflexivity].
        destruct (String.eqb credential ""); [reflexivity|].
        destruct (SpotifyClient.addTownPlayerToClient _ _ _ _ _)
          as [linked maps']. cbn in Hlink. now subst linked.
      * intros town0 token [= <-] Hprovider Hne Hlink. rewrite Hprovider.
        assert (String.eqb token "" = false) as Hnonempty
          by now destruct (String.eqb_spec token "").
        destruct (spotifySessionToken requestData) as [credential|];
          [destruct (String.eqb credential "")|];
          try (cbn; rewrite Hnonempty; eexists;
               split; [reflexivity|]; cbn; eauto).
        destruct (SpotifyClient.addTownPlayerToClient _ _ _ _ _)
          as [linked maps']. cbn in Hlink. subst linked. cbn.
        rewrite Hnonempty. eexists. split; [reflexivity|]. cbn. eauto.
    + split; [|split; [|split; [exact Hunparseable|split]]]; discriminate.
Qed.

End HandlerFacts.

(** ** The properties on the data of the test suite *)

Section OnExamples.

Import Examples.

Lemma NoDup_testing_listeners : NoDup (listeners testingTown).
Proof. apply (bool_decide_unpack _). vm_compute. exact I. Defined.

Lemma changePlayerSong_outcome_witness :
  let played := changePlayerSong workingEnv "player-1" testSong testingTown in
  let refused := changePlayerSong failingEnv "player-1" testSong testingTown in
  spotifySong player1 = None
  ∧ progress testSong = 2000
  ∧ (spotifySong <$> heap (state_of played) !! "player-1")
    = Some (Some {| displayTitle := "Testing Song by Tests";
                    uris := ["spotify:track:t35t1ng123ur1"]; progress := 0 |})
  ∧ heap (state_of played) !! "player-2" = Some player2
  ∧ delivered 2 (effects_of played)
    = [CoveyTownListener.onPlayerSongUpdated "player-1"]
  ∧ delivered 7 (effects_of played) = []
  ∧ state_of refused = testingTown
  ∧ (spotifySong <$> heap (state_of refused) !! "player-1") = Some None
  ∧ delivered 2 (effects_of refused) = [].
Proof.
  intros played refused.
  destruct (changePlayerSong_outcome workingEnv testingTown "player-1" player1
              testSong eq_refl NoDup_testing_listeners) as [Hplayed _].
  destruct (changePlayerSong_outcome failingEnv testingTown "player-1" player1
              testSong eq_refl NoDup_testing_listeners) as [_ Hrefused].
  destruct (Hplayed eq_refl) as (_ & Hsong & Hrest & Hnotes).
  destruct (Hrefused eq_refl) as (Hstate & Hkept & Hquiet).
  split; [reflexivity|]. split; [reflexivity|]. split; [exact Hsong|].
  split; [exact (Hrest "player-2" ltac:(discriminate))|].
  split; [exact (Hnotes 2%nat)|]. split; [exact (Hnotes 7%nat)|].
  split; [exact Hstate|]. split; [exact Hkept|exact (Hquiet 2%nat)].
Defined.

(** The request carries the progress 2000; the adapter is the Spotify
    client over a service that plays from the start only. *)
Lemma changePlayerSong_startPlayback_witness :
  let r := changePlayerSong clientEnv "player-1" testSong testingTown in
  progress testSong = 2000
  ∧ List.filter is_startPlayback (effects_of r)
    = [StartPlayback "town-1" "player-1" testSongFromStart]
  ∧ changePlayerSong workingEnv "player-1" testSong testingTown = r
  ∧ (spotifySong <$> heap (state_of r) !! "player-1")
    = Some (Some testSongFromStart).
Proof.
  intros r.
  destruct (changePlayerSong_startPlayback clientEnv testingTown "player-1"
              testSong fromStartOnly (townsToPlayerMaps testingWorld))
    as (Hcall & Hanswer & _ & Hclient).
  destruct (Hclient eq_refl) as [Hset _].
  split; [reflexivity|]. split; [exact Hcall|].
  split; [exact (Hanswer workingEnv eq_refl)|exact (Hset eq_refl)].
Defined.





(** Listener 2 is removed; a song request, a chat message and a move
    follow. *)
Lemma removeTownListener_silences_witness :
  let ops :=
    [ (workingEnv, ChangePlayerSong "player-1" testSong);
      (failingEnv, OnChatMessage "hello");
      (workingEnv, UpdatePlayerLocation "player-2" labelledLocation) ] in
  let quiet := state_of (removeTownListener 2 testingTown) in
  delivered 2 (effects_of (run inside false ops quiet)) = []
  ∧ delivered 3 (effects_of (run inside false ops quiet))
    = delivered 3 (effects_of (run inside false ops testingTown))
  ∧ length (delivered 3 (effects_of (run inside false ops quiet))) = 4%nat.
Proof.
  intros ops quiet.
  destruct (removeTownListener_silences 2 inside false testingTown ops)
    as (_ & Hsilent & _ & Hothers).
  split; [exact Hsilent|]. split; [|reflexivity].
  apply Hothers. discriminate.
Defined.

Lemma addTownPlayerToClient_unparseable_witness :
  let r := SpotifyClient.addTownPlayerToClient Json.parse "town-1" "player-2"
             "not json" (townsToPlayerMaps testingWorld) in
  Json.parse "not json" = None
  ∧ r.1 = Throw (SpotifyClient.parse_error "not json")
  ∧ r.2 = townsToPlayerMaps testingWorld.
Proof.
  intros r. split; [reflexivity|].
  destruct (addTownPlayerToClient_unparseable Json.parse "town-1" "player-2"
              "not json" (townsToPlayerMaps testingWorld) eq_refl)
    as (Hthrow & Hmaps & _).
  now split.
Defined.

(** C9, refuted as stated: the credential [null] parses, and for a town
    that was never registered [addTownPlayerToClient] raises. *)
Lemma addTownPlayerToClient_null_credential :
  Json.parse "null" = Some JNull
  ∧ townsToPlayerMaps testingWorld !! "nowhere" = None
  ∧ (SpotifyClient.addTownPlayerToClient Json.parse "nowhere" "player-1" "null"
       (townsToPlayerMaps testingWorld)).1
    = Throw (SpotifyClient.parse_error "null").
Proof. repeat split. Qed.

Lemma addTownPlayerToClient_unregistered_witness :
  let r := SpotifyClient.addTownPlayerToClient Json.parse "nowhere" "player-1"
             testCredential (townsToPlayerMaps testingWorld) in
  r.1 = Ok () ∧ r.2 = townsToPlayerMaps testingWorld
  ∧ SpotifyClient.getTokenForTownPlayer r.2 "nowhere" "player-1" = JUndefined.
Proof.
  intros r.
  destruct (addTownPlayerToClient_unregistered Json.parse "nowhere" "player-1"
              testCredential (townsToPlayerMaps testingWorld)
              (JObj [("access_token", JStr "test_token_1");
                     ("expiry", JNum 3600 0)]))
    as (Hmaps & Htoken & Hok & _); [reflexivity|reflexivity|discriminate|].
  split; [apply Hok; discriminate|]. now split.
Defined.

(** C10, refuted as stated: a response whose body is [null] lacks an
    item, and [getPlaybackState] does not return absent for it but rejects,
    which a failed call never does. *)
Lemma getPlaybackState_null_body :
  SpotifyClient.getPlaybackState (λ _ _, Some JNull)
    (townsToPlayerMaps testingWorld) "town-1" "player-1" = Throw TypeError
  ∧ SpotifyClient.getPlaybackState (λ _ _, Some JUndefined)
      (townsToPlayerMaps testingWorld) "town-1" "player-1" = Throw TypeError
  ∧ SpotifyClient.getPlaybackState (λ _ _, None)
      (townsToPlayerMaps testingWorld) "town-1" "player-1" = Ok None.
Proof. repeat split. Qed.

Lemma getPlaybackState_item_witness :
  SpotifyClient.getPlaybackState (λ _ _, Some noItemBody)
    (townsToPlayerMaps testingWorld) "town-1" "player-1" = Ok None
  ∧ SpotifyClient.getPlaybackState (λ _ _, None)
      (townsToPlayerMaps testingWorld) "town-1" "player-1" = Ok None
  ∧ SpotifyClient.getPlaybackState (λ _ _, Some JNull)
      (townsToPlayerMaps testingWorld) "town-1" "player-1" = Throw TypeError.
Proof.
  split; [|split].
  - destruct (getPlaybackState_item (λ _ _, Some noItemBody)
                (townsToPlayerMaps testingWorld) "town-1" "player-1")
      as (_ & Hnone & _).
    destruct (Hnone noItemBody eq_refl eq_refl) as (item & Hitem & Habsent).
    apply Habsent. now injection Hitem as <-.
  - destruct (getPlaybackState_item (λ _ _, None)
                (townsToPlayerMaps testingWorld) "town-1" "player-1")
      as (_ & _ & Hfailed & _).
    apply Hfailed. reflexivity.
  - destruct (getPlaybackState_item (λ _ _, Some JNull)
                (townsToPlayerMaps testingWorld) "town-1" "player-1")
      as (_ & _ & _ & Hnull).
    apply (Hnull JNull); reflexivity.
Defined.

(** C4, the defect: a delete request with a wrong password is refused and
    the store keeps the town, yet the town and its players' tokens are
    gone from the Spotify client. *)
Theorem townDeleteHandler_wrong_password_unregisters :
  let h := townDeleteHandler wrongPasswordDelete testingWorld in
  outcome h
  = Ok {| isOK := false;
          message := Some "Invalid password. Please double check your town update password.";
          response := Some () |}
  ∧ towns (world_after h) = towns testingWorld
  ∧ SpotifyClient.getTokenForTownPlayer (townsToPlayerMaps testingWorld)
      "town-1" "player-1" = JStr "test_token_1"
  ∧ townsToPlayerMaps (world_after h) !! "town-1" = None
  ∧ SpotifyClient.getTokenForTownPlayer (townsToPlayerMaps (world_after h))
      "town-1" "player-1" = JUndefined.
Proof.
  intros h. subst h.
  rewrite (townDeleteHandler_wrong_password wrongPasswordDelete testingWorld
             testingTown); [|reflexivity|discriminate].
  cbn [outcome world_after fst snd towns townsToPlayerMaps].
  split; [reflexivity|]. split; [reflexivity|]. split; [reflexivity|].
  split; [apply lookup_delete_eq|].
  apply getToken_unregistered, lookup_delete_eq.
Qed.

(** C5, refuted as stated: the join handler throws when the video token
    provider fails, and when the credential does not parse. *)
Lemma townJoinHandler_throws :
  outcome (townJoinHandler Json.parse failingOutside (joinRequest None)
             testingWorld)
  = Throw ProviderError
  ∧ outcome (townJoinHandler Json.parse workingOutside
               (joinRequest (Some "not json")) testingWorld)
    = Throw (SpotifyClient.parse_error "not json").
Proof. split; reflexivity. Qed.

Lemma handlers_envelopes_witness :
  (∃ e, outcome (townJoinHandler Json.parse workingOutside (joinRequest None)
                   testingWorld) = Ok e
        ∧ isOK e = true ∧ is_Some (response e))
  ∧ (∃ e, outcome (townJoinHandler Json.parse workingOutside
                     (joinRequest (Some testCredential)) testingWorld) = Ok e
          ∧ isOK e = true ∧ is_Some (response e))
  ∧ outcome (townJoinHandler Json.parse failingOutside (joinRequest None)
               testingWorld) = Throw ProviderError
  ∧ outcome (townJoinHandler Json.parse workingOutside
               (joinRequest (Some "not json")) testingWorld)
    = Throw (SpotifyClient.parse_error "not json").
Proof.
  destruct (handlers_envelopes Json.parse workingOutside testingWorld)
    as (_ & _ & _ & _ & Hjoin).
  destruct (handlers_envelopes Json.parse failingOutside testingWorld)
    as (_ & _ & _ & _ & Hfail).
  split; [|split; [|split]].
  - destruct (Hjoin (joinRequest None)) as (_ & _ & _ & _ & _ & _ & Hok).
    apply (Hok testingTown "video-3"); try reflexivity. discriminate.
  - destruct (Hjoin (joinRequest (Some testCredential)))
      as (_ & _ & _ & _ & _ & _ & Hok).
    apply (Hok testingTown "video-3"); try reflexivity. discriminate.
  - destruct (Hfail (joinRequest None)) as (_ & _ & Hprovider & _).
    apply (Hprovider testingTown); reflexivity.
  - destruct (Hjoin (joinRequest (Some "not json")))
      as (_ & _ & _ & Hraise & Hparse & _).
    apply (Hraise testingTown "video-3"); [reflexivity|reflexivity|].
    apply Hparse; [reflexivity|discriminate|reflexivity].
Defined.

End OnExamples.

(** * Further properties of the Spotify client *)

Section ClientMaps.

Variable JSON_parse : string → option JsValue.

Implicit Types (maps : SpotifyClient.TownsToPlayerMaps) (player : PlayerRef)
  (town : string).

(** What [addTownPlayerToClient] can leave behind: the maps as they were,
    or one token put under the player in a registered town. *)
Lemma addTownPlayerToClient_maps town player spotifyToken maps :
  let r := SpotifyClient.addTownPlayerToClient JSON_parse town player
             spotifyToken maps in
  r.2 = maps
  ∨ ∃ m token, maps !! town = Some m ∧ r.1 = Ok ()
               ∧ r.2 = <[town := <[player := token]> m]> maps.
Proof.
  unfold SpotifyClient.addTownPlayerToClient,
    SpotifyClient.addTownPlayerToClient_try.
  destruct (JSON_parse spotifyToken) as [v|]; [|now left].
  destruct (get_prop v "access_token") as [a|]; [|now left].
  destruct (get_prop v "expiry") as [e|]; [|now left].
  destruct (maps !! town) as [m|] eqn:Hm; [|now left].
  right. now exists m, {| SpotifyClient.accessToken := a; SpotifyClient.expiry := e |}.
Qed.

Lemma getToken_insert_other town town' player' (m : gmap PlayerRef SpotifyClient.SpotifyToken) maps :
  town' ≠ town →
  SpotifyClient.getTokenForTownPlayer (<[town := m]> maps) town' player'
  = SpotifyClient.getTokenForTownPlayer maps town' player'.
Proof.
  intros Hne. unfold SpotifyClient.getTokenForTownPlayer.
  now rewrite lookup_insert_ne.
Qed.

Lemma getToken_insert_same town player' (m : gmap PlayerRef SpotifyClient.SpotifyToken) maps :
  SpotifyClient.getTokenForTownPlayer (<[town := m]> maps) town player'
  = match m !! player' with
    | Some t => SpotifyClient.accessToken t
    | None => JUndefined
    end.
Proof.
  unfold SpotifyClient.getTokenForTownPlayer. now rewrite lookup_insert_eq.
Qed.

Lemma getToken_registered town player maps (m : gmap PlayerRef SpotifyClient.SpotifyToken) :
  maps !! town = Some m →
  SpotifyClient.getTokenForTownPlayer maps town player
  = match m !! player with
    | Some t => SpotifyClient.accessToken t
    | None => JUndefined
    end.
Proof.
  intros Hm. unfold SpotifyClient.getTokenForTownPlayer. now rewrite Hm.
Qed.

Lemma getToken_delete_other town town' player' maps :
  town' ≠ town →
  SpotifyClient.getTokenForTownPlayer (delete town maps) town' player'
  = SpotifyClient.getTokenForTownPlayer maps town' player'.
Proof.
  intros Hne. unfold SpotifyClient.getTokenForTownPlayer.
  now rewrite lookup_delete_ne.
Qed.

Lemma off_target town player town' player' :
  String.eqb town town' && String.eqb player player' = false →
  town' ≠ town ∨ player' ≠ player.
Proof.
  destruct (String.eqb_spec town town') as [->|Hne]; cbn.
  - destruct (String.eqb_spec player player') as [->|Hne]; [discriminate|].
    right. congruence.
  - left. congruence.
Qed.

(** Linking one player changes no other player's token. *)
Lemma addTownPlayerToClient_frame town player spotifyToken maps town' player' :
  town' ≠ town ∨ player' ≠ player →
  SpotifyClient.getTokenForTownPlayer
    (SpotifyClient.addTownPlayerToClient JSON_parse town player spotifyToken
       maps).2 town' player'
  = SpotifyClient.getTokenForTownPlayer maps town' player'.
Proof.
  intros Hother.
  destruct (addTownPlayerToClient_maps town player spotifyToken maps)
    as [->|(m & token & Hm & _ & ->)]; [reflexivity|].
  destruct (decide (town' = town)) as [->|Hne].
  - destruct Hother as [|Hp]; [contradiction|].
    rewrite getToken_insert_same, (getToken_registered _ _ _ _ Hm).
    now rewrite lookup_insert_ne by congruence.
  - now apply getToken_insert_other.
Qed.

Lemma removeTownPlayerFromClient_frame town player maps town' player' :
  town' ≠ town ∨ player' ≠ player →
  SpotifyClient.getTokenForTownPlayer
    (SpotifyClient.removeTownPlayerFromClient town player maps) town' player'
  = SpotifyClient.getTokenForTownPlayer maps town' player'.
Proof.
  intros Hother. unfold SpotifyClient.removeTownPlayerFromClient.
  destruct (maps !! town) as [m|] eqn:Hm; [|reflexivity].
  destruct (decide (town' = town)) as [->|Hne].
  - destruct Hother as [|Hp]; [contradiction|].
    rewrite getToken_insert_same, (getToken_registered _ _ _ _ Hm).
    now rewrite lookup_delete_ne by congruence.
  - now apply getToken_insert_other.
Qed.

(** A link that goes through puts a token made of the credential's two
    fields under the player, in the map of the town. *)
Lemma addTownPlayerToClient_linked town player spotifyToken maps
    (m : gmap PlayerRef SpotifyClient.SpotifyToken) (tokenJson access : JsValue) :
  maps !! town = Some m →
  JSON_parse spotifyToken = Some tokenJson →
  get_prop tokenJson "access_token" = Ok access →
  ∃ expires,
    get_prop tokenJson "expiry" = Ok expires
    ∧ SpotifyClient.addTownPlayerToClient JSON_parse town player spotifyToken maps
      = (Ok (),
         <[town := <[player := {| SpotifyClient.accessToken := access;
                                  SpotifyClient.expiry := expires |}]> m]> maps).
Proof.
  intros Hm Hparse Haccess.
  assert (∃ e, get_prop tokenJson "expiry" = Ok e) as [e He].
  { destruct tokenJson; cbn in *; try discriminate; eauto. }
  exists e. split; [exact He|].
  unfold SpotifyClient.addTownPlayerToClient,
    SpotifyClient.addTownPlayerToClient_try.
  now rewrite Hparse, Haccess, He, Hm.
Qed.

(** X1: linking a player of a registered town with a credential that
    parses to a value with readable properties succeeds, and the player's
    token is from then on the credential's [access_token] (undefined if it
    has none), whatever token the player had before. *)
Theorem link_then_lookup town player spotifyToken maps
    (m : gmap PlayerRef SpotifyClient.SpotifyToken) (tokenJson access : JsValue) :
  maps !! town = Some m →
  JSON_parse spotifyToken = Some tokenJson →
  get_prop tokenJson "access_token" = Ok access →
  let r := SpotifyClient.addTownPlayerToClient JSON_parse town player
             spotifyToken maps in
  r.1 = Ok ()
  ∧ SpotifyClient.getTokenForTownPlayer r.2 town player = access.
Proof.
  intros Hm Hparse Haccess r. subst r.
  destruct (addTownPlayerToClient_linked town player spotifyToken maps m
              tokenJson access Hm Hparse Haccess) as (expires & _ & ->).
  cbn [fst snd]. split; [reflexivity|].
  unfold SpotifyClient.getTokenForTownPlayer.
  rewrite lookup_insert_eq. cbn. now rewrite lookup_insert_eq.
Qed.

(** X2: [addTownPlayerToClient] never changes the token of any other
    player, or of the same player in another town, and never registers or
    unregisters a town, whether the credential parses or not and whether
    the town is registered or not. *)
Theorem link_leaves_others town player spotifyToken maps :
  let maps' :=
    (SpotifyClient.addTownPlayerToClient JSON_parse town player spotifyToken
       maps).2 in
  (∀ town' player', town' ≠ town ∨ player' ≠ player →
     SpotifyClient.getTokenForTownPlayer maps' town' player'
     = SpotifyClient.getTokenForTownPlayer maps town' player')
  ∧ (∀ town', is_Some (maps' !! town') ↔ is_Some (maps !! town')).
Proof.
  intros maps'. subst maps'. split.
  - intros town' player'. apply addTownPlayerToClient_frame.
  - intros town'.
    destruct (addTownPlayerToClient_maps town player spotifyToken maps)
      as [->|(m & token & Hm & _ & ->)]; [reflexivity|].
    destruct (decide (town' = town)) as [->|Hne].
    + rewrite lookup_insert_eq, Hm. split; eauto.
    + now rewrite lookup_insert_ne.
Qed.

(** X3: registering a town, again or for the first time, leaves every
    player of that town without a token, and keeps the tokens of all other
    towns. *)
Theorem addTownToClient_resets town maps :
  (∀ player,
     SpotifyClient.getTokenForTownPlayer
       (SpotifyClient.addTownToClient town maps) town player = JUndefined)
  ∧ (∀ town' player', town' ≠ town →
       SpotifyClient.getTokenForTownPlayer
         (SpotifyClient.addTownToClient town maps) town' player'
       = SpotifyClient.getTokenForTownPlayer maps town' player').
Proof.
  unfold SpotifyClient.addTownToClient. split.
  - intros player. now rewrite getToken_insert_same, lookup_empty.
  - intros town' player' Hne. now apply getToken_insert_other.
Qed.

(** X4: removing a town leaves every player of that town without a token,
    keeps the tokens of all other towns, and makes a later link for that
    town return normally without storing anything. *)
Theorem removeTownFromClient_forgets town maps :
  let maps' := SpotifyClient.removeTownFromClient town maps in
  (∀ player, SpotifyClient.getTokenForTownPlayer maps' town player = JUndefined)
  ∧ (∀ town' player', town' ≠ town →
       SpotifyClient.getTokenForTownPlayer maps' town' player'
       = SpotifyClient.getTokenForTownPlayer maps town' player')
  ∧ (∀ player spotifyToken,
       (SpotifyClient.addTownPlayerToClient JSON_parse town player spotifyToken
          maps').2 = maps').
Proof.
  intros maps'. subst maps'. unfold SpotifyClient.removeTownFromClient.
  split; [|split].
  - intros player. apply getToken_unregistered, lookup_delete_eq.
  - intros town' player' Hne. now apply getToken_delete_other.
  - intros player spotifyToken.
    destruct (addTownPlayerToClient_maps town player spotifyToken
                (delete town maps))
      as [Heq|(m & token & Hm & _)]; [exact Heq|].
    now rewrite lookup_delete_eq in Hm.
Qed.

(** X5: unlinking a player leaves that player without a token, changes no
    other token, and neither registers nor unregisters any town. *)
Theorem removeTownPlayerFromClient_unlinks town player maps :
  let maps' := SpotifyClient.removeTownPlayerFromClient town player maps in
  SpotifyClient.getTokenForTownPlayer maps' town player = JUndefined
  ∧ (∀ town' player', town' ≠ town ∨ player' ≠ player →
       SpotifyClient.getTokenForTownPlayer maps' town' player'
       = SpotifyClient.getTokenForTownPlayer maps town' player')
  ∧ (∀ town', is_Some (maps' !! town') ↔ is_Some (maps !! town')).
Proof.
  intros maps'. subst maps'. split; [|split].
  - unfold SpotifyClient.removeTownPlayerFromClient.
    destruct (maps !! town) as [m|] eqn:Hm.
    + now rewrite getToken_insert_same, lookup_delete_eq.
    + now apply getToken_unregistered.
  - intros town' player'. apply removeTownPlayerFromClient_frame.
  - intros town'. unfold SpotifyClient.removeTownPlayerFromClient.
    destruct (maps !! town) as [m|] eqn:Hm; [|reflexivity].
    destruct (decide (town' = town)) as [->|Hne].
    + rewrite lookup_insert_eq, Hm. split; eauto.
    + now rewrite lookup_insert_ne.
Qed.

(** X6: the life of a town leaves no trace: registering a town that was not
    registered, linking any number of its players with any credentials and
    unlinking any of them, then removing the town, gives back the maps as
    they were. *)
Theorem town_lifecycle_round_trip town maps
    (steps : list (PlayerRef * option string)) :
  maps !! town = None →
  SpotifyClient.removeTownFromClient town
    (foldl (λ acc step,
              match step.2 with
              | Some spotifyToken =>
                  (SpotifyClient.addTownPlayerToClient JSON_parse town step.1
                     spotifyToken acc).2
              | None => SpotifyClient.removeTownPlayerFromClient town step.1 acc
              end)
       (SpotifyClient.addTownToClient town maps) steps)
  = maps.
Proof.
  intros Hfresh. unfold SpotifyClient.removeTownFromClient.
  assert (∀ acc, delete town acc = maps →
            delete town
              (foldl (λ acc step,
                        match step.2 with
                        | Some spotifyToken =>
                            (SpotifyClient.addTownPlayerToClient JSON_parse town
                               step.1 spotifyToken acc).2
                        | None =>
                            SpotifyClient.removeTownPlayerFromClient town step.1
                              acc
                        end) acc steps) = maps) as Hloop.
  { induction steps as [|[player [spotifyToken|]] steps IH]; intros acc Hacc;
      cbn; [assumption| |]; apply IH.
    - destruct (addTownPlayerToClient_maps town player spotifyToken acc)
        as [->|(m & token & _ & _ & ->)]; [assumption|].
      now rewrite delete_insert_eq.
    - unfold SpotifyClient.removeTownPlayerFromClient.
      destruct (acc !! town); [|assumption]. now rewrite delete_insert_eq. }
  apply Hloop. unfold SpotifyClient.addTownToClient.
  rewrite delete_insert_eq. now apply delete_id.
Qed.

(** The token a call sends depends on no call that is not about the
    player. *)
Lemma mutate_frame (mu : SpotifyClient.Mutation) town player maps :
  SpotifyClient.concerns mu town player = false →
  SpotifyClient.getTokenForTownPlayer (SpotifyClient.mutate JSON_parse mu maps)
    town player
  = SpotifyClient.getTokenForTownPlayer maps town player.
Proof.
  destruct mu as [t|t|t p token|t p]; cbn [SpotifyClient.concerns SpotifyClient.mutate].
  - intros Hne%String.eqb_neq. unfold SpotifyClient.addTownToClient.
    apply getToken_insert_other. congruence.
  - intros Hne%String.eqb_neq. unfold SpotifyClient.removeTownFromClient.
    apply getToken_delete_other. congruence.
  - intros Hoff%off_target. now apply addTownPlayerToClient_frame.
  - intros Hoff%off_target. now apply removeTownPlayerFromClient_frame.
Qed.

End ClientMaps.

(** * Further properties of the Spotify queries *)

Section PropertyReads.

Implicit Types (v : JsValue) (k : string).

(** Reading a property throws on [null] and [undefined], and on nothing
    else. *)
Lemma get_prop_cases v k :
  (nullish v = true ∧ get_prop v k = Throw TypeError)
  ∨ (nullish v = false ∧ ∃ x, get_prop v k = Ok x).
Proof. destruct v; cbn; eauto. Qed.

Lemma get_index0_cases v :
  (nullish v = true ∧ get_index0 v = Throw TypeError)
  ∨ (nullish v = false ∧ ∃ x, get_index0 v = Ok x).
Proof. destruct v as [| | | |[|c s]| |]; cbn; eauto. Qed.

Lemma truthy_not_nullish v : truthy v = true → nullish v = false.
Proof. now destruct v. Qed.

Lemma convertible_false v : convertible v = false → Unprintable v.
Proof.
  revert v. fix convertible_false 1.
  intros v. destruct v as [| | | | |elems|fields]; cbn; try discriminate.
  - intros Hall. induction elems as [|e elems IH]; [discriminate|].
    cbn in Hall. apply andb_false_iff in Hall as [He|Hrest].
    + apply (Unprintable_array _ e); [now left|]. now apply convertible_false.
    + specialize (IH Hrest). inversion IH as [|? elem Hin Helem]; subst.
      apply (Unprintable_array _ elem); [now right|assumption].
  - destruct (assoc "toString" fields) as [member|] eqn:Hmember;
      [|discriminate].
    intros _. now apply (Unprintable_object _ member).
Qed.

(** The conversion to a string fails on the unprintable values, and on no
    other. *)
Lemma convertible_spec v : convertible v = false ↔ Unprintable v.
Proof.
  split; [apply convertible_false|].
  induction 1 as [fields member Hmember|elems elem Hin Helem IH]; cbn.
  - now rewrite Hmember.
  - apply not_true_iff_false. intros Hall.
    rewrite forallb_forall in Hall. rewrite (Hall elem Hin) in IH.
    discriminate.
Qed.

End PropertyReads.

Section Queries.

Variable JSON_parse : string → option JsValue.
Variable axios_get : string → JsValue → option JsValue.
Variable axios_put : string → SpotifyClient.PlayBody → JsValue → bool.
Variable Number_toString : Z → Z → string.

Implicit Types (maps : SpotifyClient.TownsToPlayerMaps) (player : PlayerRef)
  (town : string).

(** Chooses the branch of a property read from what is known of the value
    read from, and rewrites the read. *)
Ltac read_prop v k x Hn Hx :=
  destruct (get_prop_cases v k) as [[Hn Hx]|[Hn [x Hx]]]; rewrite Hx; cbn.

(** X7: [getPlaybackState] rejects, with a TypeError, exactly when the call
    came back with a body that is [null] or [undefined]; a failed call and
    any other body give a value. *)
Theorem getPlaybackState_rejects maps town player :
  let response :=
    axios_get "https://api.spotify.com/v1/me/player"
      (SpotifyClient.getTokenForTownPlayer maps town player) in
  let result := SpotifyClient.getPlaybackState axios_get maps town player in
  (is_throw result = true ↔ ∃ body, response = Some body ∧ nullish body = true)
  ∧ (is_throw result = true → result = Throw TypeError).
Proof.
  intros response result. subst response result.
  unfold SpotifyClient.getPlaybackState, SpotifyClient.getSpotifyAPICallResponse.
  destruct (axios_get _ _) as [body|]; cbn.
  - read_prop body "item" item Hbody Hitem.
    + split; [|reflexivity]. split; [|reflexivity]. eauto.
    + read_prop body "is_playing" playing Hbody2 Hplaying; [congruence|].
      destruct (truthy item); cbn; (split; [|discriminate]);
        (split; [discriminate|]); intros (b & [= <-] & ?); congruence.
  - split; [|discriminate]. split; [discriminate|].
    intros (b & ? & _). discriminate.
Qed.

(** X8: whenever [getCurrentPlayingSong] returns a song, the response had
    an item; the song's title is the item's name, [" by "], and the name of
    the first artist of the item's album (later artists are not named); its
    URI list holds exactly the item's URI; its progress is the response's
    [progress_ms]. *)
Theorem getCurrentPlayingSong_song maps town player (song : SpotifyClient.CurrentSong) :
  SpotifyClient.getCurrentPlayingSong axios_get Number_toString maps town player
  = Ok (Some song) →
  ∃ body item title album artists artist artistName uri,
    axios_get "https://api.spotify.com/v1/me/player/currently-playing"
      (SpotifyClient.getTokenForTownPlayer maps town player) = Some body
    ∧ get_prop body "item" = Ok item ∧ truthy item = true
    ∧ get_prop item "name" = Ok title
    ∧ get_prop item "album" = Ok album
    ∧ get_prop album "artists" = Ok artists
    ∧ get_index0 artists = Ok artist
    ∧ get_prop artist "name" = Ok artistName
    ∧ get_prop item "uri" = Ok uri
    ∧ SpotifyClient.song_displayTitle song
      = ToString Number_toString title +:+ " by "
        +:+ ToString Number_toString artistName
    ∧ SpotifyClient.song_uris song = [uri]
    ∧ get_prop body "progress_ms" = Ok (SpotifyClient.song_progress song).
Proof.
  unfold SpotifyClient.getCurrentPlayingSong,
    SpotifyClient.getSpotifyAPICallResponse.
  destruct (axios_get _ _) as [body|]; [|discriminate].
  destruct (get_prop body "item") as [item|] eqn:Hitem; [|discriminate].
  destruct (truthy item) eqn:Htruthy; [|discriminate].
  destruct (get_prop item "name") as [title|] eqn:Htitle; [|discriminate].
  destruct (get_prop item "album") as [album|] eqn:Halbum; [|discriminate].
  destruct (get_prop album "artists") as [artists|] eqn:Hartists;
    [|discriminate].
  destruct (get_index0 artists) as [artist|] eqn:Hartist; [|discriminate].
  destruct (get_prop artist "name") as [artistName|] eqn:Hname; [|discriminate].
  unfold interpolate.
  destruct (convertible title); [|discriminate].
  destruct (convertible artistName); [|discriminate].
  destruct (get_prop item "uri") as [uri|] eqn:Huri; [|discriminate].
  destruct (get_prop body "progress_ms") as [progress|] eqn:Hprogress;
    [|discriminate].
  intros [= <-]. cbn.
  exists body, item, title, album, artists, artist, artistName, uri.
  repeat split; assumption.
Qed.

(** X9: [getCurrentPlayingSong] returns undefined exactly when the call
    failed or the response has no item (an absent or falsy [item]),
    whatever else the response holds. *)
Theorem getCurrentPlayingSong_absent maps town player :
  let response :=
    axios_get "https://api.spotify.com/v1/me/player/currently-playing"
      (SpotifyClient.getTokenForTownPlayer maps town player) in
  SpotifyClient.getCurrentPlayingSong axios_get Number_toString maps town player
  = Ok None
  ↔ response = None
    ∨ ∃ body item,
        response = Some body ∧ get_prop body "item" = Ok item
        ∧ truthy item = false.
Proof.
  intros response. subst response.
  unfold SpotifyClient.getCurrentPlayingSong,
    SpotifyClient.getSpotifyAPICallResponse.
  destruct (axios_get _ _) as [body|]; [|split; [now left|reflexivity]].
  destruct (get_prop body "item") as [item|] eqn:Hitem.
  - destruct (truthy item) eqn:Htruthy.
    + split.
      * destruct (get_prop item "name") as [title|]; [|discriminate].
        destruct (get_prop item "album") as [album|]; [|discriminate].
        destruct (get_prop album "artists") as [artists|]; [|discriminate].
        destruct (get_index0 artists) as [artist|]; [|discriminate].
        destruct (get_prop artist "name") as [artistName|]; [|discriminate].
        unfold interpolate.
        destruct (convertible title); [|discriminate].
        destruct (convertible artistName); [|discriminate].
        destruct (get_prop item "uri"); [|discriminate].
        destruct (get_prop body "progress_ms"); discriminate.
      * intros [|(b & i & [= <-] & ? & ?)]; congruence.
    + split; [|reflexivity]. intros _. right. now exists body, item.
  - split; [discriminate|].
    intros [|(b & i & [= <-] & ? & _)]; congruence.
Qed.

(** X10: [getCurrentPlayingSong] rejects, with a TypeError, exactly when
    the body of the response is [null] or [undefined], or the response has
    an item whose [album], whose album's [artists], or whose first artist
    is [null] or undefined (for instance an item without an album, or an
    album with an empty artist list), or the item's name or the first
    artist's name cannot be converted to a string (an object with a member
    of its own called [toString], or an array holding one). *)
Theorem getCurrentPlayingSong_rejects maps town player :
  let response :=
    axios_get "https://api.spotify.com/v1/me/player/currently-playing"
      (SpotifyClient.getTokenForTownPlayer maps town player) in
  let result :=
    SpotifyClient.getCurrentPlayingSong axios_get Number_toString maps town
      player in
  (is_throw result = true
   ↔ ∃ body, response = Some body
       ∧ (nullish body = true
          ∨ ∃ item album,
              get_prop body "item" = Ok item ∧ truthy item = true
              ∧ get_prop item "album" = Ok album
              ∧ (nullish album = true
                 ∨ ∃ artists,
                     get_prop album "artists" = Ok artists
                     ∧ (nullish artists = true
                        ∨ ∃ artist,
                            get_index0 artists = Ok artist
                            ∧ (nullish artist = true
                               ∨ ∃ title artistName,
                                   get_prop item "name" = Ok title
                                   ∧ get_prop artist "name" = Ok artistName
                                   ∧ (Unprintable title
                                      ∨ Unprintable artistName))))))
  ∧ (is_throw result = true → result = Throw TypeError).
Proof.
  intros response result. subst response result.
  unfold SpotifyClient.getCurrentPlayingSong,
    SpotifyClient.getSpotifyAPICallResponse.
  destruct (axios_get _ _) as [body|]; cbn;
    [|split; [split; [discriminate|intros (? & ? & _); discriminate]
             |discriminate]].
  read_prop body "item" item Hbody Hitem.
  { split; [|reflexivity]. split; [|reflexivity]. eauto. }
  destruct (truthy item) eqn:Htruthy; cbn.
  2:{ split; [|discriminate]. split; [discriminate|].
      intros (b & [= <-] & [?|(i & a & ? & ? & _)]); congruence. }
  pose proof (truthy_not_nullish _ Htruthy) as Hitem1.
  read_prop item "name" title Hitem2 Htitle; [congruence|].
  read_prop item "album" album Hitem3 Halbum; [congruence|].
  read_prop album "artists" artists Halbum1 Hartists.
  { split; [|reflexivity]. split; [|reflexivity]. intros _.
    exists body. split; [reflexivity|]. right. exists item, album.
    repeat split; try assumption. now left. }
  destruct (get_index0_cases artists)
    as [[Hartists1 Hartist]|[Hartists1 [artist Hartist]]]; rewrite Hartist; cbn.
  { split; [|reflexivity]. split; [|reflexivity]. intros _.
    exists body. split; [reflexivity|]. right. exists item, album.
    repeat split; try assumption. right. exists artists. split; [assumption|].
    now left. }
  read_prop artist "name" artistName Hartist1 Hname.
  { split; [|reflexivity]. split; [|reflexivity]. intros _.
    exists body. split; [reflexivity|]. right. exists item, album.
    repeat split; try assumption. right. exists artists. split; [assumption|].
    right. exists artist. split; [assumption|]. now left. }
  unfold interpolate.
  destruct (convertible title) eqn:Hprints.
  2:{ split; [|reflexivity]. split; [|reflexivity]. intros _.
      exists body. split; [reflexivity|]. right. exists item, album.
      repeat split; try assumption. right. exists artists.
      split; [assumption|]. right. exists artist. split; [assumption|].
      right. exists title, artistName. repeat split; try assumption.
      left. now apply convertible_spec. }
  destruct (convertible artistName) eqn:Hprints2.
  2:{ split; [|reflexivity]. split; [|reflexivity]. intros _.
      exists body. split; [reflexivity|]. right. exists item, album.
      repeat split; try assumption. right. exists artists.
      split; [assumption|]. right. exists artist. split; [assumption|].
      right. exists title, artistName. repeat split; try assumption.
      right. now apply convertible_spec. }
  read_prop item "uri" uri Hitem4 Huri; [congruence|].
  read_prop body "progress_ms" progressMs Hbody2 Hprogress; [congruence|].
  split; [|discriminate]. split; [discriminate|].
  intros (b & [= <-] & [Hb|(i & a & Hi & _ & Ha & Hcause)]); [congruence|].
  assert (i = item) as -> by congruence.
  assert (a = album) as -> by congruence.
  destruct Hcause as [Ha1|(ars & Hars & Hcause)]; [congruence|].
  assert (ars = artists) as -> by congruence.
  destruct Hcause as [Hars1|(ar & Har & Hcause)]; [congruence|].
  assert (ar = artist) as -> by congruence.
  destruct Hcause as [Har1|(ti & an & Hti & Han & Hcause)]; [congruence|].
  assert (ti = title) as -> by congruence.
  assert (an = artistName) as -> by congruence.
  destruct Hcause as [Hcause|Hcause]; apply convertible_spec in Hcause;
    congruence.
Qed.

(** The four calls to the Spotify API send the player's token and depend
    on the maps through it alone. *)
Lemma queries_token maps maps' town player (songData : SongData) :
  SpotifyClient.getTokenForTownPlayer maps' town player
  = SpotifyClient.getTokenForTownPlayer maps town player →
  SpotifyClient.getSpotifyUserID axios_get maps' town player
  = SpotifyClient.getSpotifyUserID axios_get maps town player
  ∧ SpotifyClient.getCurrentPlayingSong axios_get Number_toString maps' town
      player
    = SpotifyClient.getCurrentPlayingSong axios_get Number_toString maps town
        player
  ∧ SpotifyClient.getPlaybackState axios_get maps' town player
    = SpotifyClient.getPlaybackState axios_get maps town player
  ∧ SpotifyClient.startUserPlayback axios_put maps' town player songData
    = SpotifyClient.startUserPlayback axios_put maps town player songData.
Proof.
  intros Htoken.
  unfold SpotifyClient.getSpotifyUserID, SpotifyClient.getCurrentPlayingSong,
    SpotifyClient.getPlaybackState, SpotifyClient.startUserPlayback,
    SpotifyClient.getSpotifyAPICallResponse.
  now rewrite Htoken.
Qed.

(** X11: no sequence of calls on the client that are about other players
    or other towns (registering or removing a town, linking or unlinking a
    player) changes what the API calls made for this player send or
    return. *)
Theorem queries_isolated (calls : list SpotifyClient.Mutation) maps town player
    (songData : SongData) :
  forallb (λ mu, negb (SpotifyClient.concerns mu town player)) calls = true →
  let maps' := foldl (λ acc mu, SpotifyClient.mutate JSON_parse mu acc) maps calls in
  SpotifyClient.getTokenForTownPlayer maps' town player
  = SpotifyClient.getTokenForTownPlayer maps town player
  ∧ SpotifyClient.getSpotifyUserID axios_get maps' town player
    = SpotifyClient.getSpotifyUserID axios_get maps town player
  ∧ SpotifyClient.getCurrentPlayingSong axios_get Number_toString maps' town
      player
    = SpotifyClient.getCurrentPlayingSong axios_get Number_toString maps town
        player
  ∧ SpotifyClient.getPlaybackState axios_get maps' town player
    = SpotifyClient.getPlaybackState axios_get maps town player
  ∧ SpotifyClient.startUserPlayback axios_put maps' town player songData
    = SpotifyClient.startUserPlayback axios_put maps town player songData.
Proof.
  intros Hcalls maps'.
  assert (SpotifyClient.getTokenForTownPlayer maps' town player
          = SpotifyClient.getTokenForTownPlayer maps town player) as Htoken.
  { subst maps'. revert maps Hcalls.
    induction calls as [|mu calls IH]; intros maps Hcalls; [reflexivity|].
    cbn in *. apply andb_prop in Hcalls as [Hmu Hcalls].
    rewrite IH by assumption. apply mutate_frame.
    now apply negb_true_iff. }
  split; [exact Htoken|]. now apply queries_token.
Qed.

End Queries.

(** * The client's instance *)

(** X12: the first [getInstance] empties the static maps, so that every
    token registered before it is forgotten; from then on [getInstance]
    changes nothing, however often it is called. *)
Theorem getInstance_first_call (s : SpotifyClient.Statics) :
  let s' := SpotifyClient.getInstance s in
  SpotifyClient.has_instance s' = true
  ∧ SpotifyClient.getInstance s' = s'
  ∧ (SpotifyClient.has_instance s = false →
     ∀ town player,
       SpotifyClient.getTokenForTownPlayer (SpotifyClient.static_maps s') town
         player = JUndefined)
  ∧ (SpotifyClient.has_instance s = true → s' = s).
Proof.
  unfold SpotifyClient.getInstance, SpotifyClient.constructor.
  destruct s as [[|] maps]; cbn.
  - split; [reflexivity|]. split; [reflexivity|]. split; [discriminate|].
    reflexivity.
  - split; [reflexivity|]. split; [reflexivity|]. split; [|discriminate].
    intros _ town player. apply getToken_unregistered, lookup_empty.
Qed.

(** * Further properties of the request handlers *)

Section StoreFacts.

Implicit Types (store : list Town) (t : Town).

(** A controller changed in place is found under its id as changed. *)
Lemma getControllerForTown_putController coveyTownID store t t' :
  CoveyTownsStore.getControllerForTown coveyTownID store = Some t →
  CoveyTownController.coveyTownID t' = coveyTownID →
  CoveyTownsStore.getControllerForTown coveyTownID
    (CoveyTownsStore.putController t' store) = Some t'.
Proof.
  intros Hfind <-. unfold CoveyTownsStore.getControllerForTown,
    CoveyTownsStore.putController in *.
  induction store as [|t0 store IH]; [discriminate|]. cbn in *.
  destruct (String.eqb_spec (CoveyTownController.coveyTownID t0)
              (CoveyTownController.coveyTownID t')) as [Heq|Hne].
  - now rewrite String.eqb_refl.
  - destruct (String.eqb_spec (CoveyTownController.coveyTownID t0)
                (CoveyTownController.coveyTownID t')); [contradiction|].
    now apply IH.
Qed.

Lemma getControllerForTown_last coveyTownID store t :
  CoveyTownController.coveyTownID t = coveyTownID →
  is_Some (CoveyTownsStore.getControllerForTown coveyTownID (store ++ [t])).
Proof.
  intros Hid. unfold CoveyTownsStore.getControllerForTown.
  destruct (List.find _ (store ++ [t])) as [t0|] eqn:Hfind; [eauto|].
  pose proof (find_none _ _ Hfind t) as Hnot. cbn in Hnot.
  rewrite Hid, String.eqb_refl in Hnot.
  discriminate Hnot. apply in_or_app. right. now left.
Qed.

(** What taking a player in leaves in the town when the video token
    provider answers. *)
Lemma addPlayer_enters env (newPlayer : Player) t (token : string) :
  getTokenForTown env (coveyTownID t) (id newPlayer) = Some token →
  let r := addPlayer env newPlayer t in
  coveyTownID (state_of r) = coveyTownID t
  ∧ players (state_of r) = players t ++ [id newPlayer]
  ∧ sessions (state_of r)
    = sessions t ++ [ {| player := id newPlayer; sessionToken := nanoid env;
                         videoToken := token |} ]
  ∧ listeners (state_of r) = listeners t.
Proof.
  intros Hprovider. unfold addPlayer. run_town.
  destruct (heap t !! id newPlayer); cbn; rewrite Hprovider; run_town; cbn;
    now repeat split.
Qed.

Lemma addPlayer_coveyTownID env (newPlayer : Player) t :
  coveyTownID (state_of (addPlayer env newPlayer t)) = coveyTownID t.
Proof.
  unfold addPlayer. run_town.
  destruct (heap t !! id newPlayer); cbn;
    destruct (getTokenForTown env (coveyTownID t) (id newPlayer));
    reflexivity.
Qed.

End StoreFacts.

Section HandlerExtras.

Variable JSON_parse : string → option JsValue.

Implicit Types (w : World) (out : Outside).

(** The join handler, once the town is found and the provider has
    answered: what it returns and leaves is decided by the linking of the
    credential. *)
Lemma townJoinHandler_after_addPlayer out (requestData : TownJoinRequest) w
    (town : Town) (token : string) :
  CoveyTownsStore.getControllerForTown (join_coveyTownID requestData) (towns w)
  = Some town →
  getTokenForTown (env out) (coveyTownID town) (newPlayerID out) = Some token →
  let entered :=
    addPlayer (env out) (new_Player (newPlayerID out) (join_userName requestData))
      town in
  let h := townJoinHandler JSON_parse out requestData w in
  towns (world_after h)
  = CoveyTownsStore.putController (state_of entered) (towns w)
  ∧ h.2 = effects_of entered
  ∧ (∀ credential, spotifySessionToken requestData = Some credential →
       credential ≠ "" →
       townsToPlayerMaps (world_after h)
       = (SpotifyClient.addTownPlayerToClient JSON_parse
            (join_coveyTownID requestData) (newPlayerID out) credential
            (townsToPlayerMaps w)).2
       ∧ (∀ e, (SpotifyClient.addTownPlayerToClient JSON_parse
                  (join_coveyTownID requestData) (newPlayerID out) credential
                  (townsToPlayerMaps w)).1 = Throw e →
               outcome h = Throw e)
       ∧ ((SpotifyClient.addTownPlayerToClient JSON_parse
             (join_coveyTownID requestData) (newPlayerID out) credential
             (townsToPlayerMaps w)).1 = Ok () →
          token ≠ "" →
          ∃ resp, outcome h
                  = Ok {| isOK := true; message := None; response := Some resp |}
                  ∧ coveyUserID resp = newPlayerID out
                  ∧ coveySessionToken resp = nanoid (env out)
                  ∧ providerVideoToken resp = token)).
Proof.
  intros Hfind Hprovider entered h. subst entered h.
  unfold townJoinHandler. rewrite Hfind.
  pose proof (addPlayer_value (env out)
                (new_Player (newPlayerID out) (join_userName requestData)) town)
    as Hvalue.
  cbn [id new_Player] in *. rewrite Hprovider in Hvalue.
  destruct (addPlayer _ _ town) as [[added t'] es].
  unfold value_of, state_of, effects_of in *. cbn [fst snd] in *. subst added.
  assert (String.eqb token "" = true ∨ String.eqb token "" = false) as Htoken
    by (destruct (String.eqb token ""); auto).
  split; [|split].
  - destruct (spotifySessionToken requestData) as [credential|];
      [destruct (String.eqb credential "");
       [|destruct (SpotifyClient.addTownPlayerToClient _ _ _ _ _)
           as [[|] maps']]|];
      cbn; try reflexivity; destruct Htoken as [->| ->]; reflexivity.
  - destruct (spotifySessionToken requestData) as [credential|];
      [destruct (String.eqb credential "");
       [|destruct (SpotifyClient.addTownPlayerToClient _ _ _ _ _)
           as [[|] maps']]|];
      cbn; try reflexivity; destruct Htoken as [->| ->]; reflexivity.
  - intros credential -> Hne.
    destruct (String.eqb_spec credential ""); [contradiction|].
    destruct (SpotifyClient.addTownPlayerToClient _ _ _ _ _)
      as [[[]|e0] maps']; cbn.
    + split; [destruct Htoken as [->| ->]; reflexivity|].
      split; [discriminate|]. intros _ Hnonempty.
      destruct (String.eqb_spec token ""); [contradiction|].
      eexists. split; [reflexivity|]. now repeat split.
    + split; [reflexivity|]. split; [now intros e [= <-]|discriminate].
Qed.

(** X13: a join that comes with a credential for a town registered with
    the Spotify client, and that goes through, leaves the new player linked:
    the token of the player named in the response is the credential's
    [access_token], and no other player's token has changed. *)
Theorem townJoinHandler_links out (requestData : TownJoinRequest) w
    (town : Town) (token credential : string) (tokenJson access : JsValue)
    (m : gmap PlayerRef SpotifyClient.SpotifyToken) :
  CoveyTownsStore.getControllerForTown (join_coveyTownID requestData) (towns w)
  = Some town →
  getTokenForTown (env out) (coveyTownID town) (newPlayerID out) = Some token →
  token ≠ "" →
  spotifySessionToken requestData = Some credential →
  credential ≠ "" →
  JSON_parse credential = Some tokenJson →
  get_prop tokenJson "access_token" = Ok access →
  townsToPlayerMaps w !! join_coveyTownID requestData = Some m →
  let h := townJoinHandler JSON_parse out requestData w in
  (∃ resp, outcome h
           = Ok {| isOK := true; message := None; response := Some resp |}
           ∧ SpotifyClient.getTokenForTownPlayer
               (townsToPlayerMaps (world_after h))
               (join_coveyTownID requestData) (coveyUserID resp) = access)
  ∧ (∀ town' player',
       town' ≠ join_coveyTownID requestData ∨ player' ≠ newPlayerID out →
       SpotifyClient.getTokenForTownPlayer (townsToPlayerMaps (world_after h))
         town' player'
       = SpotifyClient.getTokenForTownPlayer (townsToPlayerMaps w) town' player').
Proof.
  intros Hfind Hprovider Htoken Hcred Hne Hparse Haccess Hm h.
  destruct (townJoinHandler_after_addPlayer out requestData w town token Hfind
              Hprovider) as (_ & _ & Hlink).
  destruct (Hlink credential Hcred Hne) as (Hmaps & _ & Hok).
  destruct (addTownPlayerToClient_linked JSON_parse
              (join_coveyTownID requestData) (newPlayerID out) credential
              (townsToPlayerMaps w) m tokenJson access Hm Hparse Haccess)
    as (expires & _ & Hadd).
  assert ((SpotifyClient.addTownPlayerToClient JSON_parse
             (join_coveyTownID requestData) (newPlayerID out) credential
             (townsToPlayerMaps w)).1 = Ok ()) as Hlinked by now rewrite Hadd.
  assert (SpotifyClient.getTokenForTownPlayer
            (SpotifyClient.addTownPlayerToClient JSON_parse
               (join_coveyTownID requestData) (newPlayerID out) credential
               (townsToPlayerMaps w)).2
            (join_coveyTownID requestData) (newPlayerID out) = access)
    as Hlookup.
  { rewrite Hadd. cbn [snd].
    now rewrite getToken_insert_same, lookup_insert_eq. }
  destruct (Hok Hlinked Htoken) as (resp & Hresp & Hid & _).
  subst h. split.
  - exists resp. split; [exact Hresp|]. now rewrite Hmaps, Hid.
  - intros town' player' Hother. rewrite Hmaps.
    now apply addTownPlayerToClient_frame.
Qed.

(** X14: a join whose credential cannot be linked throws only after the
    player has been entered, and nothing is taken back: the store holds
    the controller as [addPlayer] left it, with the new player in its
    player list, the listeners have been told, and the Spotify client's
    maps are as before. *)
Theorem townJoinHandler_no_rollback out (requestData : TownJoinRequest) w
    (town : Town) (token credential : string) (e : Exn) :
  CoveyTownsStore.getControllerForTown (join_coveyTownID requestData) (towns w)
  = Some town →
  getTokenForTown (env out) (coveyTownID town) (newPlayerID out) = Some token →
  spotifySessionToken requestData = Some credential →
  credential ≠ "" →
  (SpotifyClient.addTownPlayerToClient JSON_parse (join_coveyTownID requestData)
     (newPlayerID out) credential (townsToPlayerMaps w)).1 = Throw e →
  let entered :=
    addPlayer (env out) (new_Player (newPlayerID out) (join_userName requestData))
      town in
  let h := townJoinHandler JSON_parse out requestData w in
  outcome h = Throw (SpotifyClient.parse_error credential)
  ∧ townsToPlayerMaps (world_after h) = townsToPlayerMaps w
  ∧ h.2 = effects_of entered
  ∧ ∃ town',
      CoveyTownsStore.getControllerForTown (join_coveyTownID requestData)
        (towns (world_after h)) = Some town'
      ∧ town' = state_of entered
      ∧ players town' = players town ++ [newPlayerID out].
Proof.
  intros Hfind Hprovider Hcred Hne Hthrow entered h.
  destruct (townJoinHandler_after_addPlayer out requestData w town token Hfind
              Hprovider) as (Htowns & Heffects & Hlink).
  destruct (Hlink credential Hcred Hne) as (Hmaps & Hraise & _).
  fold entered in Htowns, Heffects. fold h in Htowns, Heffects, Hmaps, Hraise.
  destruct (SpotifyClient.addTownPlayerToClient JSON_parse
              (join_coveyTownID requestData) (newPlayerID out) credential
              (townsToPlayerMaps w)) as [linked maps'] eqn:Hadd.
  cbn in Hthrow, Hmaps, Hraise. subst linked.
  apply addTownPlayerToClient_throw_unchanged in Hadd as [-> ->].
  split; [now apply Hraise|]. split; [exact Hmaps|]. split; [exact Heffects|].
  exists (state_of entered). rewrite Htowns.
  pose proof (getControllerForTown_id _ _ _ Hfind) as Hid.
  destruct (addPlayer_enters (env out)
              (new_Player (newPlayerID out) (join_userName requestData)) town
              token Hprovider) as (Hsame & Hplayers & _).
  fold entered in Hsame, Hplayers.
  split; [|split; [reflexivity|exact Hplayers]].
  apply (getControllerForTown_putController _ _ town); [assumption|].
  now rewrite Hsame.
Qed.

(** X15: on every path, the join handler touches the Spotify client's
    maps for nothing but the token of the player it creates, in the town of
    the request; without a credential it leaves them as they are; and for a
    town the store does not know it changes nothing at all and tells
    nobody, whatever credential comes with the request: the credential is
    not even parsed, so a malformed one gives the failure envelope and no
    exception. *)
Theorem townJoinHandler_frame out (requestData : TownJoinRequest) w :
  let h := townJoinHandler JSON_parse out requestData w in
  (∀ town' player',
     town' ≠ join_coveyTownID requestData ∨ player' ≠ newPlayerID out →
     SpotifyClient.getTokenForTownPlayer (townsToPlayerMaps (world_after h))
       town' player'
     = SpotifyClient.getTokenForTownPlayer (townsToPlayerMaps w) town' player')
  ∧ (spotifySessionToken requestData = None →
     townsToPlayerMaps (world_after h) = townsToPlayerMaps w)
  ∧ (CoveyTownsStore.getControllerForTown (join_coveyTownID requestData)
       (towns w) = None →
     h = (Ok {| isOK := false; message := Some "Error: No such town";
                response := None |}, w, [])).
Proof.
  intros h. subst h. unfold townJoinHandler.
  destruct (CoveyTownsStore.getControllerForTown _ _) as [town|];
    [|now repeat split].
  destruct (addPlayer _ _ town) as [[[session|e] t'] es]; cbn;
    [|split; [reflexivity|split; [reflexivity|discriminate]]].
  destruct (spotifySessionToken requestData) as [credential|].
  - destruct (String.eqb credential "").
    + destruct (String.eqb (videoToken session) ""); cbn;
        (split; [reflexivity|split; [reflexivity|discriminate]]).
    + pose proof (addTownPlayerToClient_frame JSON_parse
                    (join_coveyTownID requestData) (newPlayerID out) credential
                    (townsToPlayerMaps w)) as Hframe.
      destruct (SpotifyClient.addTownPlayerToClient _ _ _ _ _)
        as [[[]|e] maps']; cbn in *;
        [destruct (String.eqb (videoToken session) "")|]; cbn;
        (split; [exact Hframe|split; discriminate]).
  - destruct (String.eqb (videoToken session) ""); cbn;
      (split; [reflexivity|split; [reflexivity|discriminate]]).
Qed.

(** X16: the create handler refuses an empty name and then changes
    nothing; for any other name it answers with an id under which the store
    finds a town and the Spotify client holds an empty player map, the
    tokens of all other towns being kept. *)
Theorem townCreateHandler_registers out (requestData : TownCreateRequest) w :
  let h := townCreateHandler out requestData w in
  (create_friendlyName requestData = "" →
   h = (Ok {| isOK := false; message := Some "FriendlyName must be specified";
              response := None |}, w, []))
  ∧ (create_friendlyName requestData ≠ "" →
     ∃ resp,
       outcome h = Ok {| isOK := true; message := None; response := Some resp |}
       ∧ is_Some (CoveyTownsStore.getControllerForTown (create_coveyTownID resp)
                    (towns (world_after h)))
       ∧ townsToPlayerMaps (world_after h) !! create_coveyTownID resp = Some ∅
       ∧ ∀ town' player', town' ≠ create_coveyTownID resp →
           SpotifyClient.getTokenForTownPlayer
             (townsToPlayerMaps (world_after h)) town' player'
           = SpotifyClient.getTokenForTownPlayer (townsToPlayerMaps w) town'
               player').
Proof.
  intros h. subst h. unfold townCreateHandler, CoveyTownsStore.createTown.
  destruct (create_friendlyName requestData) as [|c name]; cbn.
  - split; [reflexivity|]. intros Hne. contradiction.
  - split; [discriminate|]. intros _. eexists. split; [reflexivity|]. cbn.
    split; [now apply getControllerForTown_last|].
    unfold SpotifyClient.addTownToClient.
    split; [apply lookup_insert_eq|].
    intros town' player' Hne. now apply getToken_insert_other.
Qed.

(** X17: a town created through the create handler can be joined with a
    credential right away: a join for the id the create handler answered,
    with a credential that parses to a value with readable properties,
    succeeds if the video token provider answers with a non-empty token,
    and the new player's Spotify token is then the credential's
    [access_token]. *)
Theorem create_then_join out1 out2 (created : TownCreateRequest) w
    (userName credential token : string) (tokenJson access : JsValue) :
  create_friendlyName created ≠ "" →
  getTokenForTown (env out2) (newTownID out1) (newPlayerID out2) = Some token →
  token ≠ "" →
  credential ≠ "" →
  JSON_parse credential = Some tokenJson →
  get_prop tokenJson "access_token" = Ok access →
  ∃ created_resp joined_resp,
    outcome (townCreateHandler out1 created w)
    = Ok {| isOK := true; message := None; response := Some created_resp |}
    ∧ let h :=
        townJoinHandler JSON_parse out2
          {| join_userName := userName;
             join_coveyTownID := create_coveyTownID created_resp;
             spotifySessionToken := Some credential |}
          (world_after (townCreateHandler out1 created w)) in
      outcome h
      = Ok {| isOK := true; message := None; response := Some joined_resp |}
      ∧ SpotifyClient.getTokenForTownPlayer (townsToPlayerMaps (world_after h))
          (create_coveyTownID created_resp) (coveyUserID joined_resp) = access.
Proof.
  intros Hname Hprovider Htoken Hne Hparse Haccess.
  assert (∃ w1 resp,
            townCreateHandler out1 created w
            = (Ok {| isOK := true; message := None; response := Some resp |},
               w1, [])
            ∧ create_coveyTownID resp = newTownID out1
            ∧ is_Some (CoveyTownsStore.getControllerForTown (newTownID out1)
                         (towns w1))
            ∧ townsToPlayerMaps w1 !! newTownID out1 = Some ∅)
    as (w1 & resp & Hcreated & Hid & [town Hfind] & Hregistered).
  { unfold townCreateHandler, CoveyTownsStore.createTown.
    destruct (create_friendlyName created) as [|c name]; [contradiction|]. cbn.
    eexists _, _. split; [reflexivity|]. cbn. split; [reflexivity|].
    split; [now apply getControllerForTown_last|].
    unfold SpotifyClient.addTownToClient. apply lookup_insert_eq. }
  pose proof (getControllerForTown_id _ _ _ Hfind) as Htown.
  set (requestData := {| join_userName := userName;
                         join_coveyTownID := create_coveyTownID resp;
                         spotifySessionToken := Some credential |}).
  assert (CoveyTownsStore.getControllerForTown (join_coveyTownID requestData)
            (towns w1) = Some town) as Hfind' by (cbn; now rewrite Hid).
  assert (getTokenForTown (env out2) (coveyTownID town) (newPlayerID out2)
          = Some token) as Hprovider' by now rewrite Htown.
  destruct (townJoinHandler_after_addPlayer out2 requestData w1 town token Hfind'
              Hprovider') as (_ & _ & Hlink).
  destruct (Hlink credential eq_refl Hne) as (Hmaps & _ & Hok).
  assert (townsToPlayerMaps w1 !! join_coveyTownID requestData = Some ∅) as Hm
    by (cbn; now rewrite Hid).
  destruct (addTownPlayerToClient_linked JSON_parse
              (join_coveyTownID requestData) (newPlayerID out2) credential
              (townsToPlayerMaps w1) ∅ tokenJson access Hm Hparse Haccess)
    as (expires & _ & Hadd).
  assert ((SpotifyClient.addTownPlayerToClient JSON_parse
             (join_coveyTownID requestData) (newPlayerID out2) credential
             (townsToPlayerMaps w1)).1 = Ok ()) as Hlinked by now rewrite Hadd.
  assert (SpotifyClient.getTokenForTownPlayer
            (SpotifyClient.addTownPlayerToClient JSON_parse
               (join_coveyTownID requestData) (newPlayerID out2) credential
               (townsToPlayerMaps w1)).2
            (join_coveyTownID requestData) (newPlayerID out2) = access)
    as Hlookup.
  { rewrite Hadd. cbn [snd].
    now rewrite getToken_insert_same, lookup_insert_eq. }
  destruct (Hok Hlinked Htoken) as (joined & Hjoined & Huser & _).
  exists resp, joined. rewrite Hcreated. split; [reflexivity|].
  intros h. subst h. unfold world_after in *. cbn [fst snd] in *.
  fold requestData. split; [exact Hjoined|]. rewrite Hmaps, Huser.
  exact Hlookup.
Qed.

(** X18: whatever the delete handler answers (also for an unknown town or a
    wrong password), afterwards no player of the town named in the request
    has a Spotify token, and the tokens of all other towns are kept. *)
Theorem townDeleteHandler_forgets_town (requestData : TownDeleteRequest) w :
  let w' := world_after (townDeleteHandler requestData w) in
  (∀ player,
     SpotifyClient.getTokenForTownPlayer (townsToPlayerMaps w')
       (delete_coveyTownID requestData) player = JUndefined)
  ∧ (∀ town' player', town' ≠ delete_coveyTownID requestData →
       SpotifyClient.getTokenForTownPlayer (townsToPlayerMaps w') town' player'
       = SpotifyClient.getTokenForTownPlayer (townsToPlayerMaps w) town' player').
Proof.
  intros w'. subst w'. rewrite townDeleteHandler_unregisters. split.
  - intros player. apply getToken_unregistered, lookup_delete_eq.
  - intros town' player' Hne. now apply getToken_delete_other.
Qed.

(** X19: the conversation area handler never throws; a request whose town
    is unknown, or whose session token matches no session of the town, is
    refused and changes nothing; and every refusal, also the controller's,
    carries the message naming the area's label and topic. *)
Theorem conversationAreaCreateHandler_refusals
    (requestData : ConversationAreaCreateRequest) w :
  let h := conversationAreaCreateHandler requestData w in
  (∃ e, outcome h = Ok e
        ∧ response e = Some ()
        ∧ message e
          = if isOK e then None
            else Some (unable_to_create (conversationArea requestData)))
  ∧ ((∀ town,
        CoveyTownsStore.getControllerForTown (area_coveyTownID requestData)
          (towns w) = Some town →
        getSessionByToken (area_sessionToken requestData) town = None) →
     h = (Ok {| isOK := false; response := Some ();
                message :=
                  Some (unable_to_create (conversationArea requestData)) |},
          w, [])).
Proof.
  intros h. subst h. unfold conversationAreaCreateHandler.
  destruct (CoveyTownsStore.getControllerForTown _ _) as [town|].
  - destruct (getSessionByToken _ town) as [s|] eqn:Hsession.
    + destruct (addConversationArea _ town) as [[[|] t'] es]; cbn.
      * split; [eexists; split; [reflexivity|]; now split|].
        intros Hnone. specialize (Hnone town eq_refl). congruence.
      * split; [eexists; split; [reflexivity|]; now split|].
        intros Hnone. specialize (Hnone town eq_refl). congruence.
    + split; [eexists; split; [reflexivity|]; now split|]. reflexivity.
  - split; [eexists; split; [reflexivity|]; now split|]. reflexivity.
Qed.

End HandlerExtras.

(** * Properties of the socket adapter and of the subscription *)

Section Sockets.

Implicit Types (w : World) (t : Town) (l listener : Listener).

(** X20: the socket adapter turns every call on the listener into exactly
    one message, and each method of the listener has an event name of its
    own: two calls are emitted under the same name exactly when they are
    calls of the same method, and the message carries what the call was
    given, so that two different calls never reach the client as the same
    message.  Only the end of the town also disconnects the socket, and no
    call registers anything on it. *)
Theorem townSocketAdapter_faithful (e1 e2 : Event) :
  (townSocketAdapter e1 = townSocketAdapter e2 → e1 = e2)
  ∧ (∃ name args rest,
       townSocketAdapter e1 = Emit name args :: rest
       ∧ emitted (townSocketAdapter e1) = [name]
       ∧ (rest = [] ∨ rest = [Disconnect true]))
  ∧ (emitted (townSocketAdapter e1) = emitted (townSocketAdapter e2)
     ↔ same_method e1 e2 = true)
  ∧ (In (Disconnect true) (townSocketAdapter e1)
     ↔ e1 = CoveyTownListener.onTownDestroyed)
  ∧ registered (townSocketAdapter e1) = [].
Proof.
  split; [|split; [|split; [|split]]].
  - destruct e1, e2; cbn; intros Heq; try discriminate;
      try (injection Heq as ->); reflexivity.
  - destruct e1; cbn; eauto 7.
  - destruct e1, e2; cbn; split; intros Heq;
      solve [reflexivity | discriminate Heq].
  - destruct e1; cbn; split; try discriminate; try tauto;
      intros [Hcall|Hrest]; try discriminate; try contradiction;
      destruct Hrest as [Hcall|[]]; discriminate.
  - now destruct e1.
Qed.

Lemma getSessionByToken_token (token : string) t (s : PlayerSession) :
  getSessionByToken token t = Some s → sessionToken s = token.
Proof. intros [_ Heq]%find_some. now apply String.eqb_eq. Qed.

Lemma addTownListener_subscribes listener t :
  let t' := state_of (addTownListener listener t) in
  listener ∈ listeners t' ∧ coveyTownID t' = coveyTownID t.
Proof.
  unfold addTownListener. run_town.
  destruct (existsb (Nat.eqb listener) (listeners t)) eqn:Hknown; cbn.
  - split; [|reflexivity].
    apply existsb_exists in Hknown as (l & Hin & ->%Nat.eqb_eq).
    now apply list_elem_of_In.
  - split; [|reflexivity]. apply elem_of_app. right. apply list_elem_of_here.
Qed.

(** X21: the subscription handler disconnects the socket, registers
    nothing and changes nothing when the town is unknown or the token
    matches no session of the town; with a token of a session of the town
    it emits nothing and does not disconnect the socket, subscribes its
    listener to that town, holds on to that very session, and registers a
    callback for each of [disconnect], [chatMessage], [playerMovement] and
    [playerSongRequest], in that order and for nothing else: the four
    events [socket_on] answers. *)
Theorem townSubscriptionHandler_authenticates listener (auth : SocketAuth) w :
  let r := townSubscriptionHandler listener auth w in
  ((∀ town,
      CoveyTownsStore.getControllerForTown (auth_coveyTownID auth) (towns w)
      = Some town →
      getSessionByToken (auth_token auth) town = None) →
   r = (Refused, w, [Disconnect true]) ∧ registered r.2 = [])
  ∧ (∀ town s,
       CoveyTownsStore.getControllerForTown (auth_coveyTownID auth) (towns w)
       = Some town →
       getSessionByToken (auth_token auth) town = Some s →
       r.1.1 = Subscribed s
       ∧ r.2 = [On "disconnect"; On "chatMessage"; On "playerMovement";
                On "playerSongRequest"]
       ∧ emitted r.2 = []
       ∧ (∀ close, ¬ In (Disconnect close) r.2)
       ∧ (∀ name, In (On name) r.2
                  ↔ ∃ event : SocketEvent, socket_event_name event = name)
       ∧ sessionToken s = auth_token auth
       ∧ townsToPlayerMaps r.1.2 = townsToPlayerMaps w
       ∧ ∃ town',
           CoveyTownsStore.getControllerForTown (auth_coveyTownID auth)
             (towns r.1.2) = Some town'
           ∧ listener ∈ listeners town').
Proof.
  intros r. subst r. unfold townSubscriptionHandler. split.
  - intros Hnone.
    destruct (CoveyTownsStore.getControllerForTown _ _) as [town|];
      [|now split].
    cbn. now rewrite (Hnone town eq_refl).
  - intros town s Hfind Hsession. rewrite Hfind. cbn. rewrite Hsession.
    destruct (addTownListener_subscribes listener town) as [Hin Hid].
    split; [reflexivity|]. split; [reflexivity|]. split; [reflexivity|].
    split.
    { intros close [H|[H|[H|[H|[]]]]]; discriminate H. }
    split.
    { intros name. split.
      - intros [H|[H|[H|[H|[]]]]]; injection H as <-.
        + now exists SocketDisconnect.
        + now exists (SocketChatMessage "").
        + now exists (SocketPlayerMovement
                        {| x := 0; y := 0; rotation := ""; moving := false;
                           conversationLabel := None |}).
        + now exists (SocketPlayerSongRequest
                        {| displayTitle := ""; uris := []; progress := 0 |}).
      - intros [[| | |] <-]; cbn; tauto. }
    split; [now apply (getSessionByToken_token _ town)|].
    split; [reflexivity|].
    exists (state_of (addTownListener listener town)). split; [|exact Hin].
    apply (getControllerForTown_putController _ _ town); [assumption|].
    rewrite Hid. now apply (getControllerForTown_id _ (towns w)).
Qed.

Variable contains : BoundingBox → Z → Z → bool.

(** X22: when a socket disconnects, its callback unlinks the session's
    player from the Spotify client (and nobody else), unsubscribes the
    socket's listener, and destroys the session with that listener already
    gone: the socket receives nothing about its own departure, while every
    other listener receives what [destroySession] sends. *)
Theorem socket_disconnect_callback (e : Env) (coveyTownID : string)
    (s : PlayerSession) listener t (maps : SpotifyClient.TownsToPlayerMaps) :
  let r := socket_on contains e coveyTownID s listener SocketDisconnect t maps in
  let departure := effects_of (destroySession s t) in
  SpotifyClient.getTokenForTownPlayer r.1.2 coveyTownID (player s) = JUndefined
  ∧ (∀ town' player', town' ≠ coveyTownID ∨ player' ≠ player s →
       SpotifyClient.getTokenForTownPlayer r.1.2 town' player'
       = SpotifyClient.getTokenForTownPlayer maps town' player')
  ∧ (listener ∉ listeners r.1.1)
  ∧ r.2 = others listener departure
  ∧ socket_calls listener r.2 = []
  ∧ (∀ l, l ≠ listener → socket_calls l r.2 = socket_calls l departure).
Proof.
  intros r departure. subst r departure. cbn [socket_on].
  assert ((removeTownListener listener;; destroySession s) t
          = let '(a, t', es) := destroySession s t in
            (a, without listener t', others listener es)) as ->.
  { run_town. cbn.
    change (set_listeners _ t) with (without listener t).
    rewrite (respects_destroySession listener s t).
    now destruct (destroySession s t) as [[a t'] es]. }
  unfold effects_of.
  destruct (destroySession s t) as [[a t'] es]. cbn [fst snd].
  split; [|split; [|split; [|split; [|split]]]].
  - unfold SpotifyClient.removeTownPlayerFromClient.
    destruct (maps !! coveyTownID) as [m|] eqn:Hm.
    + now rewrite getToken_insert_same, lookup_delete_eq.
    + now apply getToken_unregistered.
  - intros town' player'. apply removeTownPlayerFromClient_frame.
  - unfold without. cbn.
    intros Hin%list_elem_of_In%filter_In. destruct Hin as [_ Hneq].
    now rewrite Nat.eqb_refl in Hneq.
  - reflexivity.
  - unfold socket_calls. now rewrite delivered_others_self.
  - intros l Hne. unfold socket_calls.
    now rewrite delivered_others_other.
Qed.

End Sockets.

(** * The further properties on concrete data *)

Section ExtrasOnExamples.

Import Examples.

Lemma link_then_lookup_witness :
  let r := SpotifyClient.addTownPlayerToClient Json.parse "town-1" "player-2"
             testCredential (townsToPlayerMaps testingWorld) in
  r.1 = Ok ()
  ∧ SpotifyClient.getTokenForTownPlayer r.2 "town-1" "player-2"
    = JStr "test_token_1".
Proof.
  apply (link_then_lookup Json.parse "town-1" "player-2" testCredential
           (townsToPlayerMaps testingWorld) {[ "player-1" := testToken ]}
           testCredentialJson (JStr "test_token_1"));
    reflexivity.
Defined.

Lemma link_leaves_others_witness :
  let maps' :=
    (SpotifyClient.addTownPlayerToClient Json.parse "town-1" "player-2"
       testCredential (townsToPlayerMaps testingWorld)).2 in
  SpotifyClient.getTokenForTownPlayer maps' "town-1" "player-1"
  = SpotifyClient.getTokenForTownPlayer (townsToPlayerMaps testingWorld)
      "town-1" "player-1"
  ∧ ¬ is_Some (maps' !! "town-2").
Proof.
  intros maps'.
  destruct (link_leaves_others Json.parse "town-1" "player-2" testCredential
              (townsToPlayerMaps testingWorld)) as [Hothers Hregistered].
  split.
  - apply Hothers. right. discriminate.
  - intros Hsome%Hregistered. destruct Hsome as [m Hm]. discriminate Hm.
Defined.

Lemma addTownToClient_resets_witness :
  SpotifyClient.getTokenForTownPlayer (townsToPlayerMaps testingWorld)
    "town-1" "player-1" = JStr "test_token_1"
  ∧ SpotifyClient.getTokenForTownPlayer
      (SpotifyClient.addTownToClient "town-1" (townsToPlayerMaps testingWorld))
      "town-1" "player-1" = JUndefined
  ∧ SpotifyClient.getTokenForTownPlayer
      (SpotifyClient.addTownToClient "town-2" (townsToPlayerMaps testingWorld))
      "town-1" "player-1" = JStr "test_token_1".
Proof.
  split; [reflexivity|]. split.
  - apply (addTownToClient_resets "town-1" (townsToPlayerMaps testingWorld)).
  - destruct (addTownToClient_resets "town-2" (townsToPlayerMaps testingWorld))
      as [_ Hothers].
    rewrite (Hothers "town-1" "player-1"); [reflexivity|discriminate].
Defined.

Lemma removeTownFromClient_forgets_witness :
  let maps' :=
    SpotifyClient.removeTownFromClient "town-2"
      (SpotifyClient.addTownToClient "town-2" (townsToPlayerMaps testingWorld)) in
  SpotifyClient.getTokenForTownPlayer maps' "town-1" "player-1"
  = JStr "test_token_1"
  ∧ (SpotifyClient.addTownPlayerToClient Json.parse "town-2" "player-2"
       testCredential maps').2 = maps'.
Proof.
  intros maps'.
  destruct (removeTownFromClient_forgets Json.parse "town-2"
              (SpotifyClient.addTownToClient "town-2"
                 (townsToPlayerMaps testingWorld)))
    as (_ & Hothers & Hlink).
  split.
  - subst maps'. rewrite (Hothers "town-1" "player-1"); [reflexivity|discriminate].
  - apply Hlink.
Defined.

Lemma removeTownPlayerFromClient_unlinks_witness :
  let maps' :=
    SpotifyClient.removeTownPlayerFromClient "town-1" "player-2"
      (townsToPlayerMaps testingWorld) in
  SpotifyClient.getTokenForTownPlayer maps' "town-1" "player-1"
  = JStr "test_token_1"
  ∧ is_Some (maps' !! "town-1").
Proof.
  intros maps'.
  destruct (removeTownPlayerFromClient_unlinks "town-1" "player-2"
              (townsToPlayerMaps testingWorld)) as (_ & Hothers & Hregistered).
  split.
  - subst maps'. rewrite (Hothers "town-1" "player-1"); [reflexivity|].
    right. discriminate.
  - apply Hregistered. eexists. reflexivity.
Defined.

Lemma town_lifecycle_round_trip_witness :
  SpotifyClient.removeTownFromClient "town-2"
    (SpotifyClient.removeTownPlayerFromClient "town-2" "player-3"
       (SpotifyClient.addTownPlayerToClient Json.parse "town-2" "player-4"
          "not json"
          (SpotifyClient.addTownPlayerToClient Json.parse "town-2" "player-3"
             testCredential
             (SpotifyClient.addTownToClient "town-2"
                (townsToPlayerMaps testingWorld))).2).2)
  = townsToPlayerMaps testingWorld.
Proof.
  apply (town_lifecycle_round_trip Json.parse "town-2"
           (townsToPlayerMaps testingWorld)
           [("player-3", Some testCredential); ("player-4", Some "not json");
            ("player-3", None)]).
  reflexivity.
Defined.

Lemma getPlaybackState_rejects_witness :
  SpotifyClient.getPlaybackState (λ _ _, Some JNull)
    (townsToPlayerMaps testingWorld) "town-1" "player-1" = Throw TypeError
  ∧ is_throw (SpotifyClient.getPlaybackState (λ _ _, Some noItemBody)
                (townsToPlayerMaps testingWorld) "town-1" "player-1") = false.
Proof.
  split.
  - destruct (getPlaybackState_rejects (λ _ _, Some JNull)
                (townsToPlayerMaps testingWorld) "town-1" "player-1")
      as [[_ Hif] Herror].
    apply Herror, Hif. exists JNull. now split.
  - reflexivity.
Defined.

Lemma getCurrentPlayingSong_song_witness :
  ∃ song uri,
    SpotifyClient.getCurrentPlayingSong (λ _ _, Some trackBody) printNumber
      (townsToPlayerMaps testingWorld) "town-1" "player-1" = Ok (Some song)
    ∧ SpotifyClient.song_displayTitle song = "Testing Song by Tests"
    ∧ SpotifyClient.song_uris song = [uri].
Proof.
  set (song := {| SpotifyClient.song_displayTitle := "Testing Song by Tests";
                  SpotifyClient.song_uris := [JStr "spotify:track:t35t1ng123ur1"];
                  SpotifyClient.song_progress := JNum 2000 0 |}).
  destruct (getCurrentPlayingSong_song (λ _ _, Some trackBody) printNumber
              (townsToPlayerMaps testingWorld) "town-1" "player-1" song eq_refl)
    as (body & item & title & album & artists & artist & artistName & uri
        & _ & _ & _ & _ & _ & _ & _ & _ & _ & _ & Huris & _).
  exists song, uri. split; [reflexivity|]. split; [reflexivity|exact Huris].
Defined.

Lemma getCurrentPlayingSong_absent_witness :
  SpotifyClient.getCurrentPlayingSong (λ _ _, Some noItemBody) printNumber
    (townsToPlayerMaps testingWorld) "town-1" "player-1" = Ok None
  ∧ SpotifyClient.getCurrentPlayingSong (λ _ _, None) printNumber
      (townsToPlayerMaps testingWorld) "town-1" "player-1" = Ok None.
Proof.
  split.
  - apply (getCurrentPlayingSong_absent (λ _ _, Some noItemBody) printNumber
             (townsToPlayerMaps testingWorld) "town-1" "player-1").
    right. exists noItemBody, JUndefined. now repeat split.
  - apply (getCurrentPlayingSong_absent (λ _ _, None) printNumber
             (townsToPlayerMaps testingWorld) "town-1" "player-1").
    now left.
Defined.

Lemma getCurrentPlayingSong_rejects_witness :
  SpotifyClient.getCurrentPlayingSong (λ _ _, Some episodeBody) printNumber
    (townsToPlayerMaps testingWorld) "town-1" "player-1" = Throw TypeError
  ∧ SpotifyClient.getCurrentPlayingSong (λ _ _, Some unprintableBody)
      printNumber (townsToPlayerMaps testingWorld) "town-1" "player-1"
    = Throw TypeError.
Proof.
  split.
  - destruct (getCurrentPlayingSong_rejects (λ _ _, Some episodeBody)
                printNumber (townsToPlayerMaps testingWorld) "town-1"
                "player-1") as [[_ Hif] Herror].
    apply Herror, Hif. exists episodeBody. split; [reflexivity|]. right.
    exists (JObj [("name", JStr "An episode");
                  ("uri", JStr "spotify:episode:3p150d3")]), JUndefined.
    repeat split. now left.
  - destruct (getCurrentPlayingSong_rejects (λ _ _, Some unprintableBody)
                printNumber (townsToPlayerMaps testingWorld) "town-1"
                "player-1") as [[_ Hif] Herror].
    apply Herror, Hif. exists unprintableBody. split; [reflexivity|]. right.
    eexists _, _. split; [reflexivity|]. split; [reflexivity|].
    split; [reflexivity|]. right.
    eexists. split; [reflexivity|]. right.
    eexists. split; [reflexivity|]. right.
    eexists _, _. split; [reflexivity|]. split; [reflexivity|]. left.
    now apply (Unprintable_object _ (JStr "Testing Song")).
Defined.

Lemma queries_isolated_witness :
  let maps' :=
    SpotifyClient.addTownToClient "town-3"
      (SpotifyClient.removeTownFromClient "town-2"
         (SpotifyClient.addTownPlayerToClient Json.parse "town-1" "player-2"
            testCredential (townsToPlayerMaps testingWorld)).2) in
  SpotifyClient.getTokenForTownPlayer maps' "town-1" "player-1"
  = JStr "test_token_1"
  ∧ SpotifyClient.getPlaybackState (λ _ _, Some trackBody) maps' "town-1"
      "player-1"
    = SpotifyClient.getPlaybackState (λ _ _, Some trackBody)
        (townsToPlayerMaps testingWorld) "town-1" "player-1".
Proof.
  intros maps'.
  destruct (queries_isolated Json.parse (λ _ _, Some trackBody) (λ _ _ _, true)
              printNumber
              [ SpotifyClient.AddTownPlayer "town-1" "player-2" testCredential;
                SpotifyClient.RemoveTown "town-2";
                SpotifyClient.AddTown "town-3" ]
              (townsToPlayerMaps testingWorld) "town-1" "player-1" testSong
              eq_refl)
    as (Htoken & _ & _ & Hstate & _).
  split; [|exact Hstate]. subst maps'. etransitivity; [exact Htoken|reflexivity].
Defined.

Lemma getInstance_first_call_witness :
  let s := {| SpotifyClient.has_instance := false;
              SpotifyClient.static_maps := townsToPlayerMaps testingWorld |} in
  SpotifyClient.getTokenForTownPlayer (SpotifyClient.static_maps s) "town-1"
    "player-1" = JStr "test_token_1"
  ∧ SpotifyClient.getTokenForTownPlayer
      (SpotifyClient.static_maps (SpotifyClient.getInstance s)) "town-1"
      "player-1" = JUndefined.
Proof.
  intros s. split; [reflexivity|].
  destruct (getInstance_first_call s) as (_ & _ & Hwiped & _).
  now apply Hwiped.
Defined.

Lemma townJoinHandler_links_witness :
  let h := townJoinHandler Json.parse workingOutside
             (joinRequest (Some testCredential)) testingWorld in
  ∃ resp,
    outcome h = Ok {| isOK := true; message := None; response := Some resp |}
    ∧ SpotifyClient.getTokenForTownPlayer (townsToPlayerMaps (world_after h))
        "town-1" (coveyUserID resp) = JStr "test_token_1".
Proof.
  intros h.
  destruct (townJoinHandler_links Json.parse workingOutside
              (joinRequest (Some testCredential)) testingWorld testingTown
              "video-3" testCredential testCredentialJson (JStr "test_token_1")
              {[ "player-1" := testToken ]})
    as [Hlinked _]; try reflexivity; try discriminate.
  exact Hlinked.
Defined.

Lemma townJoinHandler_no_rollback_witness :
  let h := townJoinHandler Json.parse workingOutside
             (joinRequest (Some "not json")) testingWorld in
  outcome h = Throw (SpotifyClient.parse_error "not json")
  ∧ ∃ town',
      CoveyTownsStore.getControllerForTown "town-1" (towns (world_after h))
      = Some town'
      ∧ players town' = ["player-1"; "player-2"; "player-3"].
Proof.
  intros h.
  destruct (townJoinHandler_no_rollback Json.parse workingOutside
              (joinRequest (Some "not json")) testingWorld testingTown
              "video-3" "not json" (SpotifyClient.parse_error "not json"))
    as (Hthrow & _ & _ & town' & Hfind & _ & Hplayers);
    try reflexivity; try discriminate.
  split; [exact Hthrow|]. exists town'. split; [exact Hfind|exact Hplayers].
Defined.

Lemma townJoinHandler_frame_witness :
  townJoinHandler Json.parse workingOutside
    {| join_userName := "test player 3"; join_coveyTownID := "nowhere";
       spotifySessionToken := Some "not json" |} testingWorld
  = (Ok {| isOK := false; message := Some "Error: No such town";
           response := None |}, testingWorld, [])
  ∧ SpotifyClient.getTokenForTownPlayer
      (townsToPlayerMaps
         (world_after (townJoinHandler Json.parse workingOutside
                         (joinRequest (Some testCredential)) testingWorld)))
      "town-1" "player-1"
    = SpotifyClient.getTokenForTownPlayer (townsToPlayerMaps testingWorld)
        "town-1" "player-1".
Proof.
  split.
  - destruct (townJoinHandler_frame Json.parse workingOutside
                {| join_userName := "test player 3";
                   join_coveyTownID := "nowhere";
                   spotifySessionToken := Some "not json" |} testingWorld)
      as (_ & _ & Hunknown).
    apply Hunknown. reflexivity.
  - destruct (townJoinHandler_frame Json.parse workingOutside
                (joinRequest (Some testCredential)) testingWorld)
      as (Hframe & _ & _).
    apply Hframe. right. discriminate.
Defined.

Lemma townCreateHandler_registers_witness :
  let h := townCreateHandler workingOutside createRequest testingWorld in
  ∃ resp,
    outcome h = Ok {| isOK := true; message := None; response := Some resp |}
    ∧ townsToPlayerMaps (world_after h) !! create_coveyTownID resp = Some ∅.
Proof.
  intros h.
  destruct (townCreateHandler_registers workingOutside createRequest
              testingWorld) as [_ Hcreated].
  destruct Hcreated as (resp & Hresp & _ & Hempty & _); [discriminate|].
  exists resp. split; [exact Hresp|exact Hempty].
Defined.

Lemma create_then_join_witness :
  ∃ created_resp joined_resp,
    outcome (townCreateHandler workingOutside createRequest testingWorld)
    = Ok {| isOK := true; message := None; response := Some created_resp |}
    ∧ let h :=
        townJoinHandler Json.parse workingOutside
          {| join_userName := "newcomer";
             join_coveyTownID := create_coveyTownID created_resp;
             spotifySessionToken := Some testCredential |}
          (world_after (townCreateHandler workingOutside createRequest
                          testingWorld)) in
      outcome h
      = Ok {| isOK := true; message := None; response := Some joined_resp |}
      ∧ SpotifyClient.getTokenForTownPlayer (townsToPlayerMaps (world_after h))
          (create_coveyTownID created_resp) (coveyUserID joined_resp)
        = JStr "test_token_1".
Proof.
  apply (create_then_join Json.parse workingOutside workingOutside createRequest
           testingWorld "newcomer" testCredential "video-3" testCredentialJson
           (JStr "test_token_1")); try reflexivity; discriminate.
Defined.

Lemma townDeleteHandler_forgets_town_witness :
  let w' := world_after (townDeleteHandler wrongPasswordDelete testingWorld) in
  SpotifyClient.getTokenForTownPlayer (townsToPlayerMaps w') "town-1" "player-1"
  = JUndefined
  ∧ SpotifyClient.getTokenForTownPlayer (townsToPlayerMaps w') "town-2"
      "player-1"
    = SpotifyClient.getTokenForTownPlayer (townsToPlayerMaps testingWorld)
        "town-2" "player-1".
Proof.
  intros w'.
  destruct (townDeleteHandler_forgets_town wrongPasswordDelete testingWorld)
    as [Hgone Hothers].
  split; [apply Hgone|]. apply Hothers. discriminate.
Defined.

Lemma conversationAreaCreateHandler_refusals_witness :
  conversationAreaCreateHandler strangerAreaRequest testingWorld
  = (Ok {| isOK := false; response := Some ();
           message := Some "Unable to create conversation area area-1 with topic a topic" |},
     testingWorld, []).
Proof.
  destruct (conversationAreaCreateHandler_refusals strangerAreaRequest
              testingWorld) as [_ Hrefused].
  apply Hrefused. intros town [= <-]. reflexivity.
Defined.

Lemma townSocketAdapter_faithful_witness :
  In (Disconnect true) (townSocketAdapter CoveyTownListener.onTownDestroyed)
  ∧ ¬ In (Disconnect true)
        (townSocketAdapter (CoveyTownListener.onPlayerMoved "player-1"))
  ∧ emitted (townSocketAdapter (CoveyTownListener.onChatMessage "hello"))
    ≠ emitted (townSocketAdapter (CoveyTownListener.onPlayerMoved "player-1")).
Proof.
  split; [|split].
  - apply (townSocketAdapter_faithful CoveyTownListener.onTownDestroyed
             CoveyTownListener.onTownDestroyed). reflexivity.
  - intros Hin.
    apply (townSocketAdapter_faithful (CoveyTownListener.onPlayerMoved "player-1")
             CoveyTownListener.onTownDestroyed) in Hin.
    discriminate Hin.
  - intros Hsame.
    apply (townSocketAdapter_faithful (CoveyTownListener.onChatMessage "hello")
             (CoveyTownListener.onPlayerMoved "player-1")) in Hsame.
    discriminate Hsame.
Defined.

Lemma townSubscriptionHandler_authenticates_witness :
  (townSubscriptionHandler 9
     {| auth_token := "session-1"; auth_coveyTownID := "town-1" |}
     testingWorld).1.1 = Subscribed session1
  ∧ registered
      (townSubscriptionHandler 9
         {| auth_token := "session-1"; auth_coveyTownID := "town-1" |}
         testingWorld).2
    = ["disconnect"; "chatMessage"; "playerMovement"; "playerSongRequest"]
  ∧ townSubscriptionHandler 9
      {| auth_token := "session-9"; auth_coveyTownID := "town-1" |} testingWorld
    = (Refused, testingWorld, [Disconnect true]).
Proof.
  split; [|split].
  - destruct (townSubscriptionHandler_authenticates 9
                {| auth_token := "session-1"; auth_coveyTownID := "town-1" |}
                testingWorld) as [_ Hvalid].
    destruct (Hvalid testingTown session1) as [Hsubscribed _];
      [reflexivity|reflexivity|exact Hsubscribed].
  - destruct (townSubscriptionHandler_authenticates 9
                {| auth_token := "session-1"; auth_coveyTownID := "town-1" |}
                testingWorld) as [_ Hvalid].
    destruct (Hvalid testingTown session1) as (_ & Hcalls & _);
      [reflexivity|reflexivity|]. now rewrite Hcalls.
  - destruct (townSubscriptionHandler_authenticates 9
                {| auth_token := "session-9"; auth_coveyTownID := "town-1" |}
                testingWorld) as [Hrefused _].
    apply Hrefused. intros town [= <-]. reflexivity.
Defined.

Lemma socket_disconnect_callback_witness :
  let r := socket_on inside workingEnv "town-1" session1 2 SocketDisconnect
             testingTown (townsToPlayerMaps testingWorld) in
  SpotifyClient.getTokenForTownPlayer r.1.2 "town-1" "player-1" = JUndefined
  ∧ socket_calls 2 r.2 = []
  ∧ socket_calls 3 r.2 = [Emit "playerDisconnect" [PlayerArg "player-1"]].
Proof.
  intros r.
  destruct (socket_disconnect_callback inside workingEnv "town-1" session1 2
              testingTown (townsToPlayerMaps testingWorld))
    as (Hunlinked & _ & _ & _ & Hquiet & Hothers).
  split; [exact Hunlinked|]. split; [exact Hquiet|].
  subst r. rewrite (Hothers 3%nat); [reflexivity|discriminate].
Defined.

End ExtrasOnExamples.
